(** * The glossary converter [index/csv_to_xml.py]

    A shallow embedding of the CSV-to-Moodle-glossary script and the
    properties its description states about it.

    - Python [str] values are sequences of Unicode code points.
    - [xml.etree.ElementTree] elements are mutable objects: the script
      attaches a fresh [ENTRY] to [ENTRIES] first and fills it afterwards,
      so elements live in a store and are named by references.
    - [csv.reader] is an iterator: a list of pending items, each a row or
      the exception that reading it raises.
    - [main] threads the file system and the standard output. *)

From Stdlib Require Import NArith ZArith List String Ascii Lia.
From stdpp Require Import base option list gmap.

Local Open Scope N_scope.

(** ** Python strings *)

Abbreviation char := N (only parsing).
Abbreviation str := (list N) (only parsing).

(** An ASCII literal as a [str]. *)
Definition lit (s : string) : str := map N_of_ascii (list_ascii_of_string s).

Definition dquote : char := 34.
Definition comma : char := 44.
Definition semicolon : char := 59.
Definition newline : char := 10.

(** Truth value of a [str]: the empty string is false. *)
Definition truthy (s : str) : bool :=
  match s with [] => false | _ => true end.

(** [str.isspace] on one character (the table of CPython's
    [_PyUnicode_IsWhitespace]). *)
Definition is_space (c : char) : bool :=
  ((9 <=? c) && (c <=? 13)) || ((28 <=? c) && (c <=? 32))
  || (c =? 133) || (c =? 160) || (c =? 5760)
  || ((8192 <=? c) && (c <=? 8202))
  || (c =? 8232) || (c =? 8233) || (c =? 8239) || (c =? 8287) || (c =? 12288).

Fixpoint lstrip (s : str) : str :=
  match s with
  | c :: s' => if is_space c then lstrip s' else s
  | [] => []
  end.

Definition rstrip (s : str) : str := rev (lstrip (rev s)).

(** [s.strip()] *)
Definition strip (s : str) : str := rstrip (lstrip s).

(** [s.split(sep)] for a one-character separator: never an empty list. *)
Fixpoint split (sep : char) (s : str) : list str :=
  match s with
  | [] => [[]]
  | c :: s' =>
      if c =? sep then [] :: split sep s'
      else match split sep s' with
           | piece :: pieces => (c :: piece) :: pieces
           | [] => [[c]]
           end
  end.

(** [s.replace(old, new)] for a one-character [old]. *)
Definition replace (old : char) (new : str) (s : str) : str :=
  flat_map (fun c => if c =? old then new else [c]) s.

Local Close Scope N_scope.

(** ** Exceptions *)

Inductive exception :=
| StopIteration
| ValueError
| FileNotFoundError
| IsADirectoryError
| NotADirectoryError
| PermissionError
| UnicodeDecodeError
| CsvError
| ExpatError
| RecursionError
| UnicodeEncodeError.

Global Instance exception_eq_dec : EqDecision exception.
Proof. solve_decision. Defined.

Inductive result (A : Type) :=
| OK (a : A)
| Raised (e : exception).
Arguments OK {A} a.
Arguments Raised {A} e.

(** ** Element objects in a store *)

Abbreviation ref := nat (only parsing).

Record node := Node {
  tag : str;
  text : option str;
  children : list ref
}.

Abbreviation store := (list node) (only parsing).

(** Computations over the store that may raise. *)
Definition M (A : Type) : Type := store -> result (A * store).

Global Instance M_ret : MRet M := fun A a s => OK (a, s).
Global Instance M_bind : MBind M := fun A B k m s =>
  match m s with
  | OK (a, s') => k a s'
  | Raised e => Raised e
  end.

Definition raise {A} (e : exception) : M A := fun _ => Raised e.

Definition add_child (c : ref) (n : node) : node :=
  Node (tag n) (text n) (children n ++ [c]).

Definition with_text (t : str) (n : node) : node :=
  Node (tag n) (Some t) (children n).

(** [ET.Element(tag)] *)
Definition Element (tg : str) : M ref :=
  fun s => OK (length s, s ++ [Node tg None []]).

(** [ET.SubElement(parent, tag)]: make the element, append it to the
    parent's children, return it. *)
Definition SubElement (parent : ref) (tg : str) : M ref :=
  fun s => OK (length s, alter (add_child (length s)) parent (s ++ [Node tg None []])).

(** [elem.text = t] *)
Definition set_text (elem : ref) (t : str) : M unit :=
  fun s => OK (tt, alter (with_text t) elem s).

(** [ET.SubElement(parent, tag).text = t] *)
Definition SubElement_text (parent : ref) (tg : str) (t : str) : M unit :=
  elem ← SubElement parent tg; set_text elem t.

(** ** The csv reader as an iterator *)

Inductive item :=
| Row (fields : list str)
| Throw (e : exception).

Definition reader := list item.

(** [next(csv_data)] *)
Definition next (csv_data : reader) : M (list str * reader) :=
  match csv_data with
  | [] => raise StopIteration
  | Row fields :: rest => mret (fields, rest)
  | Throw e :: _ => raise e
  end.

(** [for row in csv_data: body] *)
Fixpoint for_rows (csv_data : reader) (body : list str -> M unit) : M unit :=
  match csv_data with
  | [] => mret tt
  | Row fields :: rest => body fields ;; for_rows rest body
  | Throw e :: _ => raise e
  end.

(** [for x in xs: body] over a list *)
Fixpoint for_each {A} (xs : list A) (body : A -> M unit) : M unit :=
  match xs with
  | [] => mret tt
  | x :: rest => body x ;; for_each rest body
  end.

(** [concept, definition, tags = row] *)
Definition unpack3 (row : list str) : M (str * str * str) :=
  match row with
  | [concept; definition; tags] => mret (concept, definition, tags)
  | _ => raise ValueError
  end.

(** ** [create_xml_structure] *)

Definition p_open : str :=
  lit "<p dir=" ++ [dquote] ++ lit "ltr" ++ [dquote] ++ lit " style="
  ++ [dquote] ++ lit "text-align: left;" ++ [dquote] ++ lit ">".
Definition p_close : str := lit "<br/></p>".

(** The f-string of line 41. *)
Definition definition_html (definition : str) : str :=
  p_open ++ definition ++ p_close.

(** [[tag.strip() for tag in tags.split(',') if tag.strip()]] *)
Definition tag_list (tags : str) : list str :=
  flat_map (fun tg => if truthy (strip tg) then [strip tg] else [])
           (split comma tags).

Definition entry_body (entries : ref) (row : list str) : M unit :=
  '(concept, definition, tags) ← unpack3 row;
  entry ← SubElement entries (lit "ENTRY");
  SubElement_text entry (lit "CONCEPT") concept ;;
  SubElement_text entry (lit "DEFINITION") (definition_html definition) ;;
  SubElement_text entry (lit "FORMAT") (lit "1") ;;
  SubElement_text entry (lit "DEFINITIONTRUST") (lit "0") ;;
  SubElement_text entry (lit "USEDYNALINK") (lit "0") ;;
  SubElement_text entry (lit "CASESENSITIVE") (lit "0") ;;
  SubElement_text entry (lit "FULLMATCH") (lit "0") ;;
  SubElement_text entry (lit "TEACHERENTRY") (lit "1") ;;
  aliases ← SubElement entry (lit "ALIASES");
  for_each (tag_list tags) (fun tag_name =>
    alias ← SubElement aliases (lit "ALIAS");
    SubElement_text alias (lit "NAME") tag_name).

(** "Fogalomtár" *)
Definition glossary_name : str := lit "Fogalomt" ++ [225%N] ++ lit "r".

Definition create_xml_structure (csv_data : reader) : M ref :=
  glossary ← Element (lit "GLOSSARY");
  info ← SubElement glossary (lit "INFO");
  SubElement_text info (lit "NAME") glossary_name ;;
  SubElement_text info (lit "INTRO") [] ;;
  SubElement_text info (lit "INTROFORMAT") (lit "1") ;;
  SubElement_text info (lit "ALLOWDUPLICATEDENTRIES") (lit "0") ;;
  SubElement_text info (lit "DISPLAYFORMAT") (lit "dictionary") ;;
  SubElement_text info (lit "SHOWSPECIAL") (lit "1") ;;
  SubElement_text info (lit "SHOWALPHABET") (lit "1") ;;
  SubElement_text info (lit "SHOWALL") (lit "1") ;;
  SubElement_text info (lit "ALLOWCOMMENTS") (lit "0") ;;
  SubElement_text info (lit "USEDYNALINK") (lit "1") ;;
  SubElement_text info (lit "DEFAULTAPPROVAL") (lit "1") ;;
  SubElement_text info (lit "GLOBALGLOSSARY") (lit "0") ;;
  SubElement_text info (lit "ENTBYPAGE") (lit "10") ;;
  entries ← SubElement info (lit "ENTRIES");
  '(_, csv_data) ← next csv_data;
  for_rows csv_data (entry_body entries) ;;
  mret glossary.

(** ** Reading a tree off the store *)

#[local] Set Warnings "-register-all".

Inductive etree := Elem (etag : str) (etext : option str) (kids : list etree).

Definition etag (t : etree) : str := let 'Elem tg _ _ := t in tg.
Definition etext (t : etree) : option str := let 'Elem _ tx _ := t in tx.
Definition kids (t : etree) : list etree := let 'Elem _ _ ks := t in ks.

(** The tree below [r], walked to depth [fuel]. *)
Fixpoint to_tree (fuel : nat) (s : store) (r : ref) : option etree :=
  match fuel with
  | O => None
  | S fuel' =>
      n ← s !! r;
      ks ← mapM (to_tree fuel' s) (children n);
      Some (Elem (tag n) (text n) ks)
  end.

(** A walk as deep as the store is large reaches every element of a
    store without cycles. *)
Definition tree_of (s : store) (r : ref) : option etree :=
  to_tree (length s) s r.

(** ** The elements the script builds, as trees *)

Definition leaf (tg tx : str) : etree := Elem tg (Some tx) [].

Definition alias_tree (name : str) : etree :=
  Elem (lit "ALIAS") None [leaf (lit "NAME") name].

(** A data row: term, definition, tag field. *)
Abbreviation row := (list N * list N * list N)%type (only parsing).

Definition Row3 (r : row) : item :=
  let '(concept, definition, tags) := r in Row [concept; definition; tags].

Definition entry_tree (r : row) : etree :=
  let '(concept, definition, tags) := r in
  Elem (lit "ENTRY") None
    [leaf (lit "CONCEPT") concept;
     leaf (lit "DEFINITION") (definition_html definition);
     leaf (lit "FORMAT") (lit "1");
     leaf (lit "DEFINITIONTRUST") (lit "0");
     leaf (lit "USEDYNALINK") (lit "0");
     leaf (lit "CASESENSITIVE") (lit "0");
     leaf (lit "FULLMATCH") (lit "0");
     leaf (lit "TEACHERENTRY") (lit "1");
     Elem (lit "ALIASES") None (map alias_tree (tag_list tags))].

Definition glossary_tree (rows : list row) : etree :=
  Elem (lit "GLOSSARY") None
    [Elem (lit "INFO") None
       [leaf (lit "NAME") glossary_name;
        leaf (lit "INTRO") [];
        leaf (lit "INTROFORMAT") (lit "1");
        leaf (lit "ALLOWDUPLICATEDENTRIES") (lit "0");
        leaf (lit "DISPLAYFORMAT") (lit "dictionary");
        leaf (lit "SHOWSPECIAL") (lit "1");
        leaf (lit "SHOWALPHABET") (lit "1");
        leaf (lit "SHOWALL") (lit "1");
        leaf (lit "ALLOWCOMMENTS") (lit "0");
        leaf (lit "USEDYNALINK") (lit "1");
        leaf (lit "DEFAULTAPPROVAL") (lit "1");
        leaf (lit "GLOBALGLOSSARY") (lit "0");
        leaf (lit "ENTBYPAGE") (lit "10");
        Elem (lit "ENTRIES") None (map entry_tree rows)]].

(** ** Layout of the store *)

Definition add_children (cs : list ref) (n : node) : node :=
  Node (tag n) (text n) (children n ++ cs).

(** The nodes of the aliases of one entry, allocated from [b] on, and
    the references [ALIASES] holds to them. *)
Fixpoint alias_block (b : nat) (names : list str) : list node :=
  match names with
  | [] => []
  | x :: xs =>
      Node (lit "ALIAS") None [b + 1]%nat
      :: Node (lit "NAME") (Some x) []
      :: alias_block (b + 2) xs
  end.

Fixpoint alias_refs (b : nat) (names : list str) : list ref :=
  match names with
  | [] => []
  | _ :: xs => b :: alias_refs (b + 2) xs
  end.

(** The nodes of one entry, allocated from [L] on. *)
Definition entry_block (L : nat) (r : row) : list node :=
  let '(concept, definition, tags) := r in
  [Node (lit "ENTRY") None
     [L + 1; L + 2; L + 3; L + 4; L + 5; L + 6; L + 7; L + 8; L + 9]%nat;
   Node (lit "CONCEPT") (Some concept) [];
   Node (lit "DEFINITION") (Some (definition_html definition)) [];
   Node (lit "FORMAT") (Some (lit "1")) [];
   Node (lit "DEFINITIONTRUST") (Some (lit "0")) [];
   Node (lit "USEDYNALINK") (Some (lit "0")) [];
   Node (lit "CASESENSITIVE") (Some (lit "0")) [];
   Node (lit "FULLMATCH") (Some (lit "0")) [];
   Node (lit "TEACHERENTRY") (Some (lit "1")) [];
   Node (lit "ALIASES") None (alias_refs (L + 10) (tag_list tags))]
  ++ alias_block (L + 10) (tag_list tags).

(** The entries of all rows, and the references [ENTRIES] holds. *)
Fixpoint entry_blocks (L : nat) (rows : list row) : list node :=
  match rows with
  | [] => []
  | r :: rest =>
      entry_block L r ++ entry_blocks (L + length (entry_block L r)) rest
  end.

Fixpoint entry_refs (L : nat) (rows : list row) : list ref :=
  match rows with
  | [] => []
  | r :: rest => L :: entry_refs (L + length (entry_block L r)) rest
  end.

(** The store once the fixed part is built: [GLOSSARY] at 0, [INFO] at
    1, the thirteen settings, [ENTRIES] at 15. *)
Definition static_store : store :=
  [Node (lit "GLOSSARY") None [1%nat];
   Node (lit "INFO") None (seq 2 14);
   Node (lit "NAME") (Some glossary_name) [];
   Node (lit "INTRO") (Some []) [];
   Node (lit "INTROFORMAT") (Some (lit "1")) [];
   Node (lit "ALLOWDUPLICATEDENTRIES") (Some (lit "0")) [];
   Node (lit "DISPLAYFORMAT") (Some (lit "dictionary")) [];
   Node (lit "SHOWSPECIAL") (Some (lit "1")) [];
   Node (lit "SHOWALPHABET") (Some (lit "1")) [];
   Node (lit "SHOWALL") (Some (lit "1")) [];
   Node (lit "ALLOWCOMMENTS") (Some (lit "0")) [];
   Node (lit "USEDYNALINK") (Some (lit "1")) [];
   Node (lit "DEFAULTAPPROVAL") (Some (lit "1")) [];
   Node (lit "GLOBALGLOSSARY") (Some (lit "0")) [];
   Node (lit "ENTBYPAGE") (Some (lit "10")) [];
   Node (lit "ENTRIES") None []].

(** ** Looking into a tree, as [ElementTree] does *)

(** [elem.iter(tag)]: the element and its descendants with that tag, in
    document order. *)
Fixpoint iter (tg : str) (t : etree) : list etree :=
  let 'Elem tg' _ ks := t in
  (if bool_decide (tg' = tg) then [t] else []) ++ flat_map (iter tg) ks.

(** [elem.findall(tag)]: the children with that tag. *)
Definition findall (tg : str) (t : etree) : list etree :=
  List.filter (fun k => bool_decide (etag k = tg)) (kids t).

(** [elem.findtext(tag)]: the text of the first child with that tag. *)
Definition findtext (tg : str) (t : etree) : option str :=
  match findall tg t with
  | k :: _ => etext k
  | [] => None
  end.

(** ** The tag field in the words of the description

    Split on commas, trim each piece, discard the empty ones. *)
Definition spec_tokens (tags : str) : list str :=
  List.filter truthy (map strip (split comma tags)).

(** A field made of commas and whitespace only. *)
Definition blank_tags (tags : str) : Prop :=
  Forall (fun c => c = comma \/ is_space c = true) tags.

(** ** [os.path.splitext] (posixpath) *)

Definition slash : N := 47%N.
Definition dot : N := 46%N.

(** [s.rfind(c)] scanning from index [i]: the last index of [c], or -1. *)
Fixpoint rfind_from (c : char) (s : str) (i : Z) : Z :=
  match s with
  | [] => (-1)%Z
  | x :: s' =>
      let r := rfind_from c s' (i + 1)%Z in
      if (0 <=? r)%Z then r else if (x =? c)%N then i else (-1)%Z
  end.

Definition rfind (c : char) (s : str) : Z := rfind_from c s 0%Z.

(** [p[i:j]], [p[:j]] and [p[i:]] for indices that are not negative. *)
Definition slice (p : str) (i j : Z) : str :=
  take (Z.to_nat (j - i)) (drop (Z.to_nat i) p).
Definition slice_to (p : str) (j : Z) : str := take (Z.to_nat j) p.
Definition slice_from (p : str) (i : Z) : str := drop (Z.to_nat i) p.

(** The [while filenameIndex < dotIndex] loop of [genericpath._splitext];
    [n] is the number of turns left, [dotIndex - filenameIndex]. *)
Fixpoint skip_leading_dots (n : nat) (p : str) (filenameIndex dotIndex : Z)
  : option (str * str) :=
  match n with
  | O => None
  | S n' =>
      if bool_decide (slice p filenameIndex (filenameIndex + 1) <> [dot])
      then Some (slice_to p dotIndex, slice_from p dotIndex)
      else skip_leading_dots n' p (filenameIndex + 1)%Z dotIndex
  end.

Definition splitext (p : str) : str * str :=
  let sepIndex := rfind slash p in
  let dotIndex := rfind dot p in
  if (dotIndex >? sepIndex)%Z then
    let filenameIndex := (sepIndex + 1)%Z in
    match skip_leading_dots (Z.to_nat (dotIndex - filenameIndex)) p
                            filenameIndex dotIndex with
    | Some split_at_dot => split_at_dot
    | None => (p, [])
    end
  else (p, []).

(** ** Files *)

(** A path names a directory or a file holding bytes.  A file or a
    directory is known by one spelling of its path, the key it has in the
    map; no component is [.], [..] or a symbolic link. *)
Inductive inode :=
| Dir
| File (writable : bool) (data : list N).

Record world := World {
  fs : gmap (list N) inode;
  stdout : list (list N)
}.

(** [print(line)] *)
Definition print (line : str) (w : world) : world :=
  World (fs w) (stdout w ++ [line]).

(** *** Path resolution

    To open a path the system walks, from left to right, through what
    precedes each slash of the path: each of these has to be a directory.
    Slashes that follow one another count once, and what precedes a
    leading slash is the root, which is there. *)
Fixpoint lstrip_slashes (s : str) : str :=
  match s with
  | [] => []
  | c :: s' => if (c =? slash)%N then lstrip_slashes s' else s
  end.

Definition rstrip_slashes (s : str) : str := rev (lstrip_slashes (rev s)).

Definition ends_with_slash (path : str) : bool :=
  match rev path with
  | c :: _ => (c =? slash)%N
  | [] => false
  end.

Fixpoint directories_from (before rest : str) : list str :=
  match rest with
  | [] => []
  | c :: rest' =>
      if (c =? slash)%N then
        rstrip_slashes before
        :: directories_from (if ends_with_slash before then before
                             else before ++ [c]) rest'
      else directories_from (before ++ [c]) rest'
  end.

Definition directories (path : str) : list str := directories_from [] path.

(** The error of the first of them that is not a directory: [ENOENT]
    ([FileNotFoundError]) when nothing has that name, [ENOTDIR]
    ([NotADirectoryError]) when a regular file has. *)
Fixpoint obstacle (w : world) (dirs : list str) : option exception :=
  match dirs with
  | [] => None
  | [] :: dirs' => obstacle w dirs'
  | d :: dirs' =>
      match fs w !! d with
      | Some Dir => obstacle w dirs'
      | Some (File _ _) => Some NotADirectoryError
      | None => Some FileNotFoundError
      end
  end.

(** [open(path, 'r')].  A path that has no entry fails with the error of
    the walk; when the walk goes through, the path is not found, unless it
    ends with a slash and so names the directory before it. *)
Definition open_r (w : world) (path : str) : result (list N) :=
  match fs w !! path with
  | Some (File _ data) => OK data
  | Some Dir => Raised IsADirectoryError
  | None =>
      match obstacle w (directories path) with
      | Some e => Raised e
      | None =>
          if ends_with_slash path then Raised IsADirectoryError
          else Raised FileNotFoundError
      end
  end.

(** [open(path, 'w')]: an existing file is emptied, a missing one is
    created when the walk to it goes through.  A path that ends with a
    slash cannot be created ([EISDIR]), whatever its last component is; the
    empty path is not found. *)
Definition open_w (w : world) (path : str) : result world :=
  match fs w !! path with
  | Some Dir => Raised IsADirectoryError
  | Some (File writable _) =>
      if writable then OK (World (<[path := File true []]> (fs w)) (stdout w))
      else Raised PermissionError
  | None =>
      if ends_with_slash path then
        match obstacle w (directories (rstrip_slashes path)) with
        | Some e => Raised e
        | None => Raised IsADirectoryError
        end
      else
        match obstacle w (directories path), path with
        | Some e, _ => Raised e
        | None, [] => Raised FileNotFoundError
        | None, _ :: _ =>
            OK (World (<[path := File true []]> (fs w)) (stdout w))
        end
  end.

(** UTF-8, one code point. *)
Definition utf8_char (c : N) : option (list N) :=
  (if c <? 128 then Some [c]
   else if c <? 2048 then Some [192 + c / 64; 128 + c mod 64]
   else if (55296 <=? c) && (c <=? 57343) then None
   else if c <? 65536 then
     Some [224 + c / 4096; 128 + (c / 64) mod 64; 128 + c mod 64]
   else if c <? 1114112 then
     Some [240 + c / 262144; 128 + (c / 4096) mod 64;
           128 + (c / 64) mod 64; 128 + c mod 64]
   else None)%N.

Definition utf8_encode (s : str) : option (list N) :=
  option_map (@concat N) (mapM utf8_char s).

(** [xml_file.write(text)] on a file opened with [encoding='utf-8']. *)
Definition write (w : world) (path : str) (content : str) : result world :=
  match utf8_encode content with
  | Some bytes => OK (World (<[path := File true bytes]> (fs w)) (stdout w))
  | None => Raised UnicodeEncodeError
  end.

(** ** Serialization: [ET.tostring], [minidom.parseString], [toprettyxml]

    The script serializes the tree, parses the bytes again and pretty
    prints the document. The parser returns the elements the serializer
    wrote, each non-empty text as one text node with its line ends
    normalized, and refuses characters outside XML's [Char] production. *)

Inductive dom :=
| DElement (tagName : str) (childNodes : list dom)
| DText (data : str).

(** XML 1.0 [Char]. *)
Definition xml_char (c : N) : bool :=
  ((c =? 9) || (c =? 10) || (c =? 13)
   || ((32 <=? c) && (c <=? 55295))
   || ((57344 <=? c) && (c <=? 65533))
   || ((65536 <=? c) && (c <=? 1114111)))%N.

(** Line ends as the parser reports them: CR LF and CR become LF. *)
Fixpoint normalize_eol (s : str) : str :=
  match s with
  | [] => []
  | c :: s' =>
      if (c =? 13)%N then
        newline :: match s' with
                   | d :: s'' =>
                       if (d =? newline)%N then normalize_eol s''
                       else normalize_eol s'
                   | [] => []
                   end
      else c :: normalize_eol s'
  end.

Definition text_of (tx : option str) : str :=
  match tx with Some s => s | None => [] end.

Fixpoint text_ok (t : etree) : bool :=
  let 'Elem _ tx ks := t in
  forallb xml_char (text_of tx) && forallb text_ok ks.

Fixpoint dom_of (t : etree) : dom :=
  let 'Elem tg tx ks := t in
  DElement tg
    ((if truthy (text_of tx) then [DText (normalize_eol (text_of tx))] else [])
     ++ map dom_of ks).

(** [minidom.parseString(ET.tostring(t, 'utf-8'))]; the tags are the
    names the script writes, only the texts come from the input. *)
Definition reparse (t : etree) : result dom :=
  if text_ok t then OK (dom_of t) else Raised ExpatError.

Definition amp : N := 38%N.
Definition lt : N := 60%N.
Definition gt : N := 62%N.

Section Converter.

(** What iterating [csv.reader(open(path, 'r', encoding='utf-8'),
    delimiter=';')] yields for a file with the given bytes. *)
Variable csv_reader : list N -> reader.

(** Older versions of [minidom] also escape the double quote in
    character data (Python 3.11 does); newer ones do not. *)
Variable quot_in_text : bool.

(** [minidom._write_data] for character data. *)
Definition write_data (data : str) : str :=
  let data := replace amp (lit "&amp;") data in
  let data := replace lt (lit "&lt;") data in
  let data := if quot_in_text then replace dquote (lit "&quot;") data
              else data in
  replace gt (lit "&gt;") data.

(** [Node.writexml(writer, indent, addindent, newl)] of elements and
    text nodes. *)
Fixpoint writexml (addindent newl : str) (indent : str) (n : dom) : str :=
  match n with
  | DText data => write_data (indent ++ data ++ newl)
  | DElement tagName childNodes =>
      indent ++ lit "<" ++ tagName
      ++ match childNodes with
         | [] => lit "/>" ++ newl
         | [DText data] =>
             lit ">" ++ write_data data ++ lit "</" ++ tagName ++ lit ">" ++ newl
         | _ =>
             lit ">" ++ newl
             ++ flat_map (writexml addindent newl (indent ++ addindent)) childNodes
             ++ indent ++ lit "</" ++ tagName ++ lit ">" ++ newl
         end
  end.

(** [doc.toprettyxml(indent="  ", encoding="UTF-8").decode()] *)
Definition toprettyxml (root : dom) : str :=
  lit "<?xml version=" ++ [dquote] ++ lit "1.0" ++ [dquote]
  ++ lit " encoding=" ++ [dquote] ++ lit "UTF-8" ++ [dquote] ++ lit "?>"
  ++ [newline]
  ++ writexml (lit "  ") [newline] [] root.

(** Lines 81-83. *)
Definition pretty_print (s : store) (xml_data : ref) : result str :=
  match tree_of s xml_data with
  | None => Raised RecursionError
  | Some t =>
      match reparse t with
      | OK document => OK (toprettyxml document)
      | Raised e => Raised e
      end
  end.

(** ** [main] *)

Record args := Args {
  input_csv : str;
  output_xml : option str
}.

(** Lines 70-73. *)
Definition output_path (a : args) : str :=
  let default := (splitext (input_csv a)).1 ++ lit ".xml" in
  match output_xml a with
  | Some output_xml_path =>
      if truthy output_xml_path then output_xml_path else default
  | None => default
  end.

Definition success_message (a : args) (output_xml_path : str) : str :=
  lit "Successfully converted '" ++ input_csv a ++ lit "' to '"
  ++ output_xml_path ++ lit "'".

Definition error_message (a : args) : str :=
  lit "Error: Input file not found at '" ++ input_csv a ++ lit "'".

(** The body of the [try], lines 76-88. *)
Definition try_body (a : args) (output_xml_path : str) (w : world)
  : result unit * world :=
  match open_r w (input_csv a) with
  | Raised e => (Raised e, w)
  | OK bytes =>
      match create_xml_structure (csv_reader bytes) [] with
      | Raised e => (Raised e, w)
      | OK (xml_data, s) =>
          match pretty_print s xml_data with
          | Raised e => (Raised e, w)
          | OK pretty_xml =>
              match open_w w output_xml_path with
              | Raised e => (Raised e, w)
              | OK w1 =>
                  match write w1 output_xml_path pretty_xml with
                  | Raised e => (Raised e, w1)
                  | OK w2 =>
                      (OK tt, print (success_message a output_xml_path) w2)
                  end
              end
          end
      end
  end.

(** How a run ends: [main] returns, or an exception leaves it. *)
Inductive outcome :=
| Returned
| Uncaught (e : exception).

Definition main (a : args) (w : world) : outcome * world :=
  let output_xml_path := output_path a in
  match try_body a output_xml_path w with
  | (OK _, w') => (Returned, w')
  | (Raised FileNotFoundError, w') => (Returned, print (error_message a) w')
  | (Raised e, w') => (Uncaught e, w')
  end.

(** The exit status of the interpreter running [main()]. *)
Definition exit_status (o : outcome) : Z :=
  match o with
  | Returned => 0%Z
  | Uncaught _ => 1%Z
  end.

End Converter.

(** ** A reader and some worlds for the examples *)

(** The lines of a text, a final line end closing the last line. *)
Definition lines (s : str) : list str :=
  match s with
  | [] => []
  | _ => let pieces := split newline s in
         match List.last pieces [] with
         | [] => removelast pieces
         | _ => pieces
         end
  end.

(** [csv.reader] on ASCII files without quoting: one row per line, fields
    cut at the semicolons, no fields for a blank line. *)
Definition plain_reader (bytes : list N) : reader :=
  if forallb (fun b => b <? 128)%N bytes then
    map (fun line => match line with
                     | [] => Row []
                     | _ => Row (split semicolon line)
                     end)
        (lines bytes)
  else [Throw UnicodeDecodeError].

Definition pets_csv : list N :=
  lit "Term;Definition;Tags" ++ [newline]
  ++ lit "Cat;A small animal;animal, pet" ++ [newline]
  ++ lit "Dog;A loyal animal;animal" ++ [newline].

Definition pets_world : world :=
  World {[ lit "pets.csv" := File true pets_csv ]} [].

Definition missing_args : args := Args (lit "missing.csv") None.

(** The input is asked for below [pets.csv], which is a regular file. *)
Definition below_file_args : args := Args (lit "pets.csv/x.csv") None.

Definition pets_args : args := Args (lit "pets.csv") None.

(** A directory with an empty file. *)
Definition empty_world : world :=
  World {[ lit "empty.csv" := File true [] ]} [].

Definition empty_args : args := Args (lit "empty.csv") None.

(** The output is asked for in a directory that does not exist. *)
Definition nodir_args : args :=
  Args (lit "pets.csv") (Some (lit "out/pets.xml")).

(** The output argument is the empty string. *)
Definition blank_output_args : args := Args (lit "pets.csv") (Some []).

(** ** Auxiliary notions for the statements *)

(** The characters of a row are XML characters. *)
Definition row_ok (r : row) : bool :=
  let '(concept, definition, tags) := r in
  forallb xml_char concept && forallb xml_char definition
  && forallb xml_char tags.

(** Tags and texts of a tree are made of XML characters. *)
Fixpoint tree_ok (t : etree) : bool :=
  let 'Elem tg tx ks := t in
  forallb xml_char tg && forallb xml_char (text_of tx) && forallb tree_ok ks.

(** [x] occurs in [y] as a contiguous part. *)
Definition occurs_in (x y : str) : Prop :=
  exists before after, y = before ++ x ++ after.

(** Induction on trees, with the hypothesis for all children. *)
Fixpoint etree_children_ind (P : etree -> Prop)
    (step : forall tg tx ks, Forall P ks -> P (Elem tg tx ks))
    (t : etree) : P t :=
  let 'Elem tg tx ks := t in
  step tg tx ks
    ((fix children (l : list etree) : Forall P l :=
        match l with
        | [] => @List.Forall_nil etree P
        | k :: l' =>
            @List.Forall_cons etree P k l' (etree_children_ind P step k)
                              (children l')
        end) ks).

Definition pets_rows : list row :=
  [(lit "Cat", lit "A small animal", lit "animal, pet");
   (lit "Dog", lit "A loyal animal", lit "animal")].

(** [pets_world] once [pets.xml] is open for writing. *)
Definition pets_world_open : world :=
  World (<[ lit "pets.xml" := File true [] ]> (fs pets_world)) [].

(** A tag field of commas and whitespace, and a term given twice. *)
Definition blank_rows : list row :=
  [(lit "Cat", lit "A small animal", lit " , ,");
   (lit "Cat", lit "A pet", [])].

(** The alias names of each entry of the tree a reader leads to. *)
Definition alias_names_of (csv_data : reader) : option (list (list (option str))) :=
  match create_xml_structure csv_data [] with
  | OK (glossary, s) =>
      g ← tree_of s glossary;
      Some (map (fun e => map (findtext (lit "NAME")) (iter (lit "ALIAS") e))
                (iter (lit "ENTRY") g))
  | Raised _ => None
  end.

(** ** Further notions for the statements *)

(** [sep.join(xs)] *)
Fixpoint join (sep : str) (xs : list str) : str :=
  match xs with
  | [] => []
  | [x] => x
  | x :: rest => x ++ sep ++ join sep rest
  end.

(** A string that neither starts nor ends with whitespace. *)
Definition trimmed (s : str) : Prop :=
  match s with [] => True | c :: _ => is_space c = false end
  /\ match rev s with [] => True | c :: _ => is_space c = false end.

(** The texts a row puts into the tree are made of XML characters: the
    term, the definition and the alias names. *)
Definition row_texts_ok (r : row) : bool :=
  let '(concept, definition, tags) := r in
  forallb xml_char concept && forallb xml_char definition
  && forallb (forallb xml_char) (tag_list tags).

(** ** More worlds for the examples *)

(** A second row with two fields only. *)
Definition short_world : world :=
  World {[ lit "short.csv" :=
             File true (lit "Term;Definition;Tags" ++ [newline]
                        ++ lit "Cat;A small animal" ++ [newline]) ]} [].
Definition short_args : args := Args (lit "short.csv") None.

(** A file that is not UTF-8: the byte E9. *)
Definition latin_world : world :=
  World {[ lit "latin.csv" := File true [233%N] ]} [].
Definition latin_args : args := Args (lit "latin.csv") None.

(** A definition with a vertical tab. *)
Definition vtab_rows : list row :=
  [(lit "Cat", lit "A" ++ [11%N] ++ lit "B", lit "pet")].
Definition vtab_world : world :=
  World {[ lit "vtab.csv" :=
             File true (lit "Term;Definition;Tags" ++ [newline]
                        ++ lit "Cat;A" ++ [11%N] ++ lit "B;pet" ++ [newline]) ]} [].
Definition vtab_args : args := Args (lit "vtab.csv") None.

(** A header row and nothing else. *)
Definition header_world : world :=
  World {[ lit "header.csv" :=
             File true (lit "Term;Definition;Tags" ++ [newline]) ]} [].
Definition header_args : args := Args (lit "header.csv") None.
Definition header_world_open : world :=
  World (<[ lit "header.xml" := File true [] ]> (fs header_world)) [].

(** The document of a glossary without entries, line by line. *)
Definition empty_glossary_document : str :=
  flat_map (fun line => line ++ [newline])
    [lit "<?xml version=" ++ [dquote] ++ lit "1.0" ++ [dquote]
     ++ lit " encoding=" ++ [dquote] ++ lit "UTF-8" ++ [dquote] ++ lit "?>";
     lit "<GLOSSARY>";
     lit "  <INFO>";
     lit "    <NAME>Fogalomt" ++ [225%N] ++ lit "r</NAME>";
     lit "    <INTRO/>";
     lit "    <INTROFORMAT>1</INTROFORMAT>";
     lit "    <ALLOWDUPLICATEDENTRIES>0</ALLOWDUPLICATEDENTRIES>";
     lit "    <DISPLAYFORMAT>dictionary</DISPLAYFORMAT>";
     lit "    <SHOWSPECIAL>1</SHOWSPECIAL>";
     lit "    <SHOWALPHABET>1</SHOWALPHABET>";
     lit "    <SHOWALL>1</SHOWALL>";
     lit "    <ALLOWCOMMENTS>0</ALLOWCOMMENTS>";
     lit "    <USEDYNALINK>1</USEDYNALINK>";
     lit "    <DEFAULTAPPROVAL>1</DEFAULTAPPROVAL>";
     lit "    <GLOBALGLOSSARY>0</GLOBALGLOSSARY>";
     lit "    <ENTBYPAGE>10</ENTBYPAGE>";
     lit "    <ENTRIES/>";
     lit "  </INFO>";
     lit "</GLOSSARY>"].

(** * The translation script [en/tools/translate_html.py] *)

(** The exceptions of this script: its own [RuntimeError], those of the
    remote service, and those of the file operations. *)
Inductive t_exception :=
| RuntimeError
| APIError
| IOError (e : exception).

Inductive t_result (A : Type) :=
| TOK (a : A)
| TRaised (e : t_exception).
Arguments TOK {A} a.
Arguments TRaised {A} e.

(** The arguments of [client.responses.create]; the temperature 0.0 is
    kept as the number 0. *)
Record request := Request {
  model : str;
  instructions : str;
  input : str;
  temperature : Z
}.

(** Files and the two output streams, and the requests sent so far, each
    with the key of the client that sent it. *)
Record t_world := TWorld {
  files : world;
  stderr : list (list N);
  requests : list (list N * request)
}.

Definition MODEL : str := lit "gpt-4.1-nano".
Definition TEMPERATURE : Z := 0%Z.

(** "Használat: python translate_html.py input.html output.html" *)
Definition usage_message : str :=
  lit "Haszn" ++ [225%N] ++ lit "lat: python translate_html.py input.html output.html".

(** "Hiba: nincs beállítva az OPENAI_API_KEY környezeti változó." *)
Definition no_key_message : str :=
  lit "Hiba: nincs be" ++ [225%N] ++ lit "ll" ++ [237%N]
  ++ lit "tva az OPENAI_API_KEY k" ++ [246%N] ++ lit "rnyezeti v"
  ++ [225%N] ++ lit "ltoz" ++ [243%N] ++ lit ".".

(** "Kész: <out_path>" *)
Definition done_message (out_path : str) : str :=
  lit "K" ++ [233%N] ++ lit "sz: " ++ out_path.

Definition eprint (line : str) (w : t_world) : t_world :=
  TWorld (files w) (stderr w ++ [line]) (requests w).

Section Translate.

(** The prompt of lines 17-30; no property depends on its wording. *)
Variable INSTRUCTIONS : str.

(** The service: what [client.responses.create] raises, or the
    [output_text] of its response ([None] when there is none), for a client
    made with the given key. *)
Variable respond : list N -> request -> t_result (option str).

(** The text [read_text(encoding="utf-8")] makes of a file's bytes, [None]
    when they are not UTF-8. *)
Variable decode_text : list N -> option str.

(** [str(Path(s))]: the path as [pathlib] writes it. *)
Variable Path : str -> str.

(** Lines 32-50; the client is represented by its key. *)
Definition translate_html (client : list N) (html : str) (w : t_world)
  : t_result str * t_world :=
  let user_input :=
    lit "<<<HTML" ++ [newline] ++ html ++ [newline] ++ lit "HTML" ++ [newline] in
  let sent := Request MODEL INSTRUCTIONS user_input TEMPERATURE in
  let w' := TWorld (files w) (stderr w) (requests w ++ [(client, sent)]) in
  match respond client sent with
  | TRaised e => (TRaised e, w')
  | TOK text =>
      match text with
      | Some text => if truthy text then (TOK text, w')
                     else (TRaised RuntimeError, w')
      | None => (TRaised RuntimeError, w')
      end
  end.

(** [in_path.read_text(encoding="utf-8")] *)
Definition read_text (w : t_world) (path : str) : t_result str :=
  match open_r (files w) path with
  | Raised e => TRaised (IOError e)
  | OK bytes =>
      match decode_text bytes with
      | Some text => TOK text
      | None => TRaised (IOError UnicodeDecodeError)
      end
  end.

(** [out_path.write_text(text, encoding="utf-8")] *)
Definition write_text (w : t_world) (path : str) (text : str)
  : t_result unit * t_world :=
  match open_w (files w) path with
  | Raised e => (TRaised (IOError e), w)
  | OK opened =>
      match write opened path text with
      | Raised e => (TRaised (IOError e), TWorld opened (stderr w) (requests w))
      | OK written => (TOK tt, TWorld written (stderr w) (requests w))
      end
  end.

(** Lines 52-72: [argv] is [sys.argv]; [environ] is [os.environ] as
    [main] finds it, that is, after [load_dotenv()] (line 8) has added the
    variables of a [.env] file that were not set. *)
Definition translate_main (argv : list str) (environ : gmap (list N) (list N))
    (w : t_world) : t_result Z * t_world :=
  match argv with
  | [_; in_arg; out_arg] =>
      let in_path := Path in_arg in
      let out_path := Path out_arg in
      match environ !! lit "OPENAI_API_KEY" with
      | Some api_key =>
          if truthy api_key then
            match read_text w in_path with
            | TRaised e => (TRaised e, w)
            | TOK html =>
                match translate_html api_key html w with
                | (TRaised e, w1) => (TRaised e, w1)
                | (TOK translated, w1) =>
                    match write_text w1 out_path translated with
                    | (TRaised e, w2) => (TRaised e, w2)
                    | (TOK _, w2) =>
                        (TOK 0%Z,
                         TWorld (print (done_message out_path) (files w2))
                                (stderr w2) (requests w2))
                    end
                end
            end
          else (TOK 2%Z, eprint no_key_message w)
      | None => (TOK 2%Z, eprint no_key_message w)
      end
  | _ => (TOK 2%Z, eprint usage_message w)
  end.

(** The status of [raise SystemExit(main())]. *)
Definition t_exit_status (r : t_result Z) : Z :=
  match r with
  | TOK status => status
  | TRaised _ => 1%Z
  end.

End Translate.

(** A service, a decoder and worlds for the examples. *)
Definition ascii_text (bytes : list N) : option str :=
  if forallb (fun b => b <? 128)%N bytes then Some bytes else None.

Definition hello_service (key : list N) (sent : request) : t_result (option str) :=
  TOK (Some (lit "<p>Hello</p>")).

Definition silent_service (key : list N) (sent : request) : t_result (option str) :=
  TOK (Some []).

Definition page_world : t_world :=
  TWorld (World {[ lit "page.html" := File true (lit "<p>Szia</p>") ]} []) [] [].

(** The page holds a byte that is not UTF-8 on its own. *)
Definition latin_page_world : t_world :=
  TWorld (World {[ lit "page.html" := File true [233%N] ]} []) [] [].

Definition page_argv : list str :=
  [lit "translate_html.py"; lit "page.html"; lit "page.en.html"].

Definition key_environ : gmap (list N) (list N) :=
  {[ lit "OPENAI_API_KEY" := lit "sk-test" ]}.

(** ** Running the store operations *)

Lemma run_bind {A B} (m : M A) (k : A -> M B) s a s' :
  m s = OK (a, s') -> (m ≫= k) s = k a s'.
Proof. intros H. unfold mbind, M_bind. by rewrite H. Qed.

Lemma bind_ext {A B} (m : M A) (k1 k2 : A -> M B) s :
  (forall a s', k1 a s' = k2 a s') -> (m ≫= k1) s = (m ≫= k2) s.
Proof.
  intros Hk. unfold mbind, M_bind. destruct (m s) as [[a s']|e]; [apply Hk|done].
Qed.

Lemma lookup_app_plus {A} (h t : list A) (k : nat) :
  (h ++ t) !! (length h + k)%nat = t !! k.
Proof. induction h as [|x h IH]; simpl; [done | apply IH]. Qed.

Lemma lookup_app_here {A} (h t : list A) : (h ++ t) !! length h = t !! 0%nat.
Proof. by rewrite <- (lookup_app_plus h t 0), Nat.add_0_r. Qed.

(** A parent among the old nodes. *)
Lemma SubElement_head s p tg :
  (p < length s)%nat ->
  SubElement p tg s
  = OK ((length (alter (add_child (length s)) p s) + 0)%nat,
        alter (add_child (length s)) p s ++ [Node tg None []]).
Proof.
  intros Hp. unfold SubElement.
  by rewrite alter_app_l, length_alter, Nat.add_0_r.
Qed.

(** A parent among the nodes [t] allocated after [h]. *)
Lemma SubElement_tail h t j tg :
  (j < length t)%nat ->
  SubElement (length h + j) tg (h ++ t)
  = OK ((length h + length t)%nat,
        h ++ (alter (add_child (length h + length t)) j t ++ [Node tg None []])).
Proof.
  intros Hj. unfold SubElement.
  rewrite length_app, <- app_assoc, alter_app_r.
  by rewrite alter_app_l.
Qed.

Lemma SubElement_text_tail h t j tg tx :
  (j < length t)%nat ->
  SubElement_text (length h + j) tg tx (h ++ t)
  = OK (tt, h ++ (alter (add_child (length h + length t)) j t
                  ++ [Node tg (Some tx) []])).
Proof.
  intros Hj. unfold SubElement_text.
  rewrite (run_bind _ _ _ _ _ (SubElement_tail h t j tg Hj)).
  cbv beta. unfold set_text. rewrite alter_app_r.
  rewrite alter_app_r_alt by (rewrite length_alter; lia).
  by rewrite length_alter, Nat.sub_diag.
Qed.

Lemma add_children_nil n : add_children [] n = n.
Proof. destruct n. unfold add_children. simpl. by rewrite app_nil_r. Qed.

Lemma add_children_cons c cs n :
  add_children cs (add_child c n) = add_children (c :: cs) n.
Proof. unfold add_children, add_child. simpl. by rewrite <- app_assoc. Qed.

(** The loop of lines 55-57, run for an [ALIASES] element at position [j]
    of the nodes [t] allocated after [h]. *)
Lemma for_each_alias_run names : forall h t j,
  (j < length t)%nat ->
  for_each names (fun tag_name =>
      alias ← SubElement (length h + j) (lit "ALIAS");
      SubElement_text alias (lit "NAME") tag_name) (h ++ t)
  = OK (tt, h ++ (alter (add_children (alias_refs (length h + length t) names)) j t
                  ++ alias_block (length h + length t) names)).
Proof.
  induction names as [|x xs IH]; intros h t j Hj.
  - simpl. rewrite app_nil_r.
    rewrite list_alter_id by apply add_children_nil. done.
  - cbn [for_each].
    set (body := fun tag_name : list N => _).
    set (L := length h) in *. set (k := length t) in *.
    set (u := alter (add_child (L + k)) j t).
    assert (Hu : length u = k) by apply length_alter.
    assert (Hbody : body x (h ++ t)
      = OK (tt, h ++ (u ++ [Node (lit "ALIAS") None [L + k + 1];
                            Node (lit "NAME") (Some x) []])%nat)).
    { unfold body.
      rewrite (run_bind _ _ _ _ _ (SubElement_tail h t j _ Hj)).
      fold L k u. unfold L.
      rewrite SubElement_text_tail by (rewrite length_app, Hu; simpl; lia).
      rewrite length_app, Hu. simpl length.
      rewrite <- Hu at 2. rewrite <- (Nat.add_0_r (length u)) at 1.
      rewrite alter_app_r. simpl. rewrite <- app_assoc. simpl.
      by rewrite Nat.add_assoc. }
    rewrite (run_bind _ _ _ _ _ Hbody). clear Hbody. subst body. unfold L.
    rewrite IH by (rewrite length_app, Hu; lia).
    rewrite length_app, Hu. simpl length. fold L.
    rewrite alter_app_l by lia. unfold u.
    rewrite list_alter_alter_eq.
    rewrite (list_alter_ext _ (add_children ((L + k)%nat :: alias_refs (L + (k + 2)) xs)) t t j);
      [| intros; apply add_children_cons | done].
    rewrite <- app_assoc. simpl.
    by rewrite !Nat.add_assoc.
Qed.

(** One turn of the loop of line 34 on a well-formed row: [ENTRIES]
    gets one more child, and the entry's nodes are appended. *)
Lemma entry_body_run entries s (r : row) :
  (entries < length s)%nat ->
  entry_body entries (let '(c, d, t) := r in [c; d; t]) s
  = OK (tt, alter (add_child (length s)) entries s ++ entry_block (length s) r).
Proof.
  intros He. destruct r as [[concept definition] tags].
  unfold entry_body. cbn [unpack3].
  rewrite (run_bind _ _ _ (concept, definition, tags) s) by done.
  rewrite (run_bind _ _ _ _ _ (SubElement_head s entries _ He)).
  assert (Hlen : length (alter (add_child (length s)) entries s) = length s)
    by apply length_alter.
  revert Hlen. generalize (alter (add_child (length s)) entries s) as h.
  intros h Hlen.
  do 8 (erewrite run_bind by (apply SubElement_text_tail; simpl; lia);
        cbn [alter list_alter app length add_child tag text children]).
  erewrite run_bind by (apply SubElement_tail; simpl; lia).
  cbn [alter list_alter app length add_child tag text children].
  rewrite for_each_alias_run by (simpl; lia).
  cbn [alter list_alter app length add_children tag text children entry_block].
  by rewrite Hlen.
Qed.

(** The loop of line 34 over well-formed rows. *)
Lemma for_rows_run entries (rows : list row) : forall s,
  (entries < length s)%nat ->
  for_rows (map Row3 rows) (entry_body entries) s
  = OK (tt, alter (add_children (entry_refs (length s) rows)) entries s
            ++ entry_blocks (length s) rows).
Proof.
  induction rows as [|r rows IH]; intros s He.
  - simpl. rewrite app_nil_r.
    rewrite list_alter_id by apply add_children_nil. done.
  - cbn [map for_rows]. destruct r as [[concept definition] tags]. cbn [Row3].
    rewrite (run_bind _ _ _ _ _
               (entry_body_run entries s (concept, definition, tags) He)).
    set (B := entry_block (length s) (concept, definition, tags)).
    rewrite IH by (rewrite length_app, length_alter; lia).
    rewrite length_app, length_alter.
    rewrite alter_app_l by (rewrite length_alter; lia).
    rewrite list_alter_alter_eq.
    rewrite (list_alter_ext _
               (add_children (length s :: entry_refs (length s + length B) rows))
               s s entries); [| intros; apply add_children_cons | done].
    by rewrite <- app_assoc.
Qed.

(** Everything before the loop runs on constants: from the empty store
    it leaves [static_store], and the header row is consumed. *)
Lemma create_xml_structure_static fields (rest : reader) :
  create_xml_structure (Row fields :: rest) []
  = (for_rows rest (entry_body 15) ;; mret 0%nat) static_store.
Proof. reflexivity. Qed.

Lemma create_xml_structure_run fields (rows : list row) :
  create_xml_structure (Row fields :: map Row3 rows) []
  = OK (0%nat, alter (add_children (entry_refs 16 rows)) 15 static_store
               ++ entry_blocks 16 rows).
Proof.
  rewrite create_xml_structure_static.
  by rewrite (run_bind _ _ _ _ _ (for_rows_run 15 rows static_store ltac:(simpl; lia))).
Qed.

(** ** Reading the layout back *)

Lemma to_tree_S f (s : store) r n ks :
  s !! r = Some n ->
  mapM (to_tree f s) (children n) = Some ks ->
  to_tree (S f) s r = Some (Elem (tag n) (text n) ks).
Proof. intros Hn Hks. simpl. rewrite Hn. simpl. by rewrite Hks. Qed.

Lemma to_tree_leaf f (h t : store) k tg tx :
  t !! k = Some (Node tg (Some tx) []) ->
  to_tree (S f) (h ++ t) (length h + k) = Some (leaf tg tx).
Proof.
  intros Hk.
  apply (to_tree_S f _ _ (Node tg (Some tx) []) []); [|done].
  by rewrite lookup_app_plus.
Qed.

Lemma mapM_cons_Some {A B} (f : A -> option B) x xs y ys :
  f x = Some y -> mapM f xs = Some ys -> mapM f (x :: xs) = Some (y :: ys).
Proof. intros Hx Hxs. simpl. rewrite Hx. simpl. by rewrite Hxs. Qed.

Lemma alias_trees f names : forall (h rest : store),
  mapM (to_tree (S (S f)) (h ++ alias_block (length h) names ++ rest))
       (alias_refs (length h) names)
  = Some (map alias_tree names).
Proof.
  induction names as [|x xs IH]; intros h rest; [done|].
  cbn [alias_refs alias_block map].
  apply mapM_cons_Some.
  - eapply (to_tree_S _ _ _ (Node (lit "ALIAS") None [length h + 1]%nat)).
    + by rewrite lookup_app_here.
    + apply mapM_cons_Some; [|done].
      by apply to_tree_leaf.
  - specialize (IH (h ++ [Node (lit "ALIAS") None [length h + 1]%nat;
                          Node (lit "NAME") (Some x) []]) rest).
    rewrite length_app in IH. simpl length in IH.
    rewrite <- app_assoc in IH. simpl in IH. exact IH.
Qed.

Lemma entry_block_tree f (r : row) (h rest : store) :
  to_tree (S (S (S (S f)))) (h ++ entry_block (length h) r ++ rest) (length h)
  = Some (entry_tree r).
Proof.
  destruct r as [[concept definition] tags]. unfold entry_block, entry_tree.
  set (names := tag_list tags).
  rewrite <- app_assoc.
  eapply (to_tree_S _ _ _ (Node (lit "ENTRY") None _)).
  { by rewrite lookup_app_here. }
  cbn [children].
  repeat (apply mapM_cons_Some; [by apply to_tree_leaf|]).
  apply mapM_cons_Some; [|done].
  eapply (to_tree_S _ _ _ (Node (lit "ALIASES") None _)).
  { by rewrite lookup_app_plus. }
  cbn [children].
  pose proof (alias_trees f names
    (h ++ [Node (lit "ENTRY") None
             [length h + 1; length h + 2; length h + 3; length h + 4; length h + 5;
              length h + 6; length h + 7; length h + 8; length h + 9]%nat;
           Node (lit "CONCEPT") (Some concept) [];
           Node (lit "DEFINITION") (Some (definition_html definition)) [];
           Node (lit "FORMAT") (Some (lit "1")) [];
           Node (lit "DEFINITIONTRUST") (Some (lit "0")) [];
           Node (lit "USEDYNALINK") (Some (lit "0")) [];
           Node (lit "CASESENSITIVE") (Some (lit "0")) [];
           Node (lit "FULLMATCH") (Some (lit "0")) [];
           Node (lit "TEACHERENTRY") (Some (lit "1")) [];
           Node (lit "ALIASES") None (alias_refs (length h + 10) names)]) rest)
    as Hal.
  rewrite length_app in Hal. simpl length in Hal.
  rewrite <- app_assoc in Hal. exact Hal.
Qed.

Lemma entry_blocks_trees f (rows : list row) : forall (h rest : store),
  mapM (to_tree (S (S (S (S f)))) (h ++ entry_blocks (length h) rows ++ rest))
       (entry_refs (length h) rows)
  = Some (map entry_tree rows).
Proof.
  induction rows as [|r rows IH]; intros h rest; [done|].
  cbn [entry_refs entry_blocks map].
  apply mapM_cons_Some.
  - rewrite <- app_assoc. apply entry_block_tree.
  - specialize (IH (h ++ entry_block (length h) r) rest).
    rewrite length_app in IH. by rewrite <- !app_assoc in *.
Qed.

(** The tree [create_xml_structure] returns for a header row followed by
    well-formed rows. *)
Lemma create_xml_structure_tree fields (rows : list row) :
  exists s,
    create_xml_structure (Row fields :: map Row3 rows) [] = OK (0%nat, s)
    /\ tree_of s 0 = Some (glossary_tree rows).
Proof.
  eexists. split; [apply create_xml_structure_run|].
  unfold tree_of. rewrite length_app, length_alter.
  change (length static_store) with 16%nat.
  cbn [Nat.add].
  set (f := length (entry_blocks 16 rows)).
  eapply (to_tree_S _ _ 0 (Node (lit "GLOSSARY") None [1%nat])); [reflexivity|].
  apply mapM_cons_Some; [|reflexivity].
  eapply (to_tree_S _ _ 1 (Node (lit "INFO") None (seq 2 14))); [reflexivity|].
  cbn [children seq].
  do 13 (apply mapM_cons_Some;
         [apply (to_tree_S _ _ _ (Node _ (Some _) []) []); reflexivity|]).
  apply mapM_cons_Some; [|reflexivity].
  eapply (to_tree_S _ _ 15 (Node (lit "ENTRIES") None _)); [reflexivity|].
  cbn [children app].
  pose proof (entry_blocks_trees (9 + f) rows
                (alter (add_children (entry_refs 16 rows)) 15 static_store) [])
    as Hen.
  rewrite length_alter in Hen. change (length static_store) with 16%nat in Hen.
  rewrite app_nil_r in Hen. exact Hen.
Qed.

(** ** What [iter] finds in the trees the script builds *)

Lemma iter_leaf tg tg' tx :
  tg' <> tg -> iter tg (leaf tg' tx) = [].
Proof. intros Hne. simpl. by rewrite bool_decide_eq_false_2. Qed.

Ltac tag_neq := let H := fresh in intros H; vm_compute in H; discriminate H.

Lemma iter_alias_trees names :
  flat_map (iter (lit "ALIAS")) (map alias_tree names) = map alias_tree names.
Proof.
  induction names as [|x xs IH]; [done|].
  cbn [map flat_map]. rewrite IH. unfold alias_tree at 1.
  cbn [iter flat_map].
  rewrite bool_decide_eq_true_2 by reflexivity.
  rewrite iter_leaf by tag_neq. reflexivity.
Qed.

Lemma iter_entry_in_alias_trees names :
  flat_map (iter (lit "ENTRY")) (map alias_tree names) = [].
Proof.
  induction names as [|x xs IH]; [done|].
  cbn [map flat_map]. rewrite IH. unfold alias_tree.
  cbn [iter flat_map].
  rewrite bool_decide_eq_false_2 by tag_neq.
  rewrite iter_leaf by tag_neq. reflexivity.
Qed.

Lemma iter_alias_entry_tree (r : row) :
  iter (lit "ALIAS") (entry_tree r) = map alias_tree (tag_list r.2).
Proof.
  destruct r as [[concept definition] tags]. unfold entry_tree.
  cbn [iter flat_map snd].
  rewrite !iter_leaf by tag_neq.
  rewrite !bool_decide_eq_false_2 by tag_neq.
  rewrite iter_alias_trees. cbn [app]. by rewrite app_nil_r.
Qed.

Lemma iter_entry_entry_tree (r : row) :
  iter (lit "ENTRY") (entry_tree r) = [entry_tree r].
Proof.
  destruct r as [[concept definition] tags]. unfold entry_tree.
  cbn [iter flat_map].
  rewrite !iter_leaf by tag_neq.
  rewrite bool_decide_eq_true_2 by reflexivity.
  rewrite bool_decide_eq_false_2 by tag_neq.
  rewrite iter_entry_in_alias_trees. reflexivity.
Qed.

Lemma iter_entry_glossary_tree (rows : list row) :
  iter (lit "ENTRY") (glossary_tree rows) = map entry_tree rows.
Proof.
  unfold glossary_tree. cbn [iter flat_map].
  rewrite !iter_leaf by tag_neq.
  rewrite !bool_decide_eq_false_2 by tag_neq.
  cbn [app]. rewrite !app_nil_r.
  induction rows as [|r rows IH]; [done|].
  cbn [map flat_map]. by rewrite iter_entry_entry_tree, IH.
Qed.

(** ** The tag field *)

(** The comprehension of line 54 computes the tokens of the description. *)
Lemma tag_list_spec_tokens tags : tag_list tags = spec_tokens tags.
Proof.
  unfold tag_list, spec_tokens.
  induction (split comma tags) as [|piece pieces IH]; [done|].
  cbn [flat_map map List.filter]. rewrite IH.
  by destruct (truthy (strip piece)).
Qed.

Lemma lstrip_spaces s :
  Forall (fun c => is_space c = true) s -> lstrip s = [].
Proof.
  induction 1 as [|c s Hc _ IH]; [done|].
  simpl. by rewrite Hc.
Qed.

Lemma strip_spaces s :
  Forall (fun c => is_space c = true) s -> strip s = [].
Proof. intros Hs. unfold strip. by rewrite lstrip_spaces. Qed.

Lemma split_blank tags :
  blank_tags tags ->
  Forall (Forall (fun c => is_space c = true)) (split comma tags).
Proof.
  induction 1 as [|c s Hc _ IH]; [by repeat constructor|].
  cbn [split]. destruct (N.eqb_spec c comma) as [->|Hne].
  - by constructor.
  - destruct Hc as [->|Hc]; [done|].
    destruct (split comma s) as [|piece pieces].
    + by repeat constructor.
    + inversion IH; subst. by repeat constructor.
Qed.

Lemma spec_tokens_blank tags : blank_tags tags -> spec_tokens tags = [].
Proof.
  intros Hb. unfold spec_tokens.
  induction (split_blank tags Hb) as [|piece pieces Hp _ IH]; [done|].
  cbn [map List.filter]. by rewrite (strip_spaces piece Hp).
Qed.

(** ** The entries of the glossary *)

Lemma findtext_concept (r : row) :
  findtext (lit "CONCEPT") (entry_tree r) = Some r.1.1.
Proof. by destruct r as [[concept definition] tags]. Qed.

Lemma findtext_definition (r : row) :
  findtext (lit "DEFINITION") (entry_tree r) = Some (definition_html r.1.2).
Proof. by destruct r as [[concept definition] tags]. Qed.

Lemma findall_definition (r : row) :
  findall (lit "DEFINITION") (entry_tree r)
  = [Elem (lit "DEFINITION") (Some (definition_html r.1.2)) []].
Proof. by destruct r as [[concept definition] tags]. Qed.

Lemma alias_names (r : row) :
  map (findtext (lit "NAME")) (iter (lit "ALIAS") (entry_tree r))
  = map Some (tag_list r.2).
Proof.
  rewrite iter_alias_entry_tree.
  induction (tag_list r.2) as [|x xs IH]; [done|].
  cbn [map]. by rewrite IH.
Qed.

(** ** [rfind] and [splitext] *)

Lemma rfind_from_spec c s : forall i,
  (0 <= i)%Z ->
  (rfind_from c s i = (-1)%Z /\ ~ In c s)
  \/ ((i <= rfind_from c s i)%Z
      /\ exists pre post,
           s = pre ++ c :: post
           /\ length pre = Z.to_nat (rfind_from c s i - i)
           /\ ~ In c post).
Proof.
  induction s as [|x s IH]; intros i Hi.
  - left. simpl. split; [done | intros []].
  - cbn [rfind_from].
    destruct (IH (i + 1)%Z ltac:(lia)) as [[Hr Hnot] | (Hle & pre & post & Hs & Hlen & Hpost)].
    + rewrite Hr. cbn [Z.leb Z.compare].
      destruct (N.eqb_spec x c) as [->|Hne].
      * right. split; [lia|]. exists [], s.
        rewrite Z.sub_diag. by repeat split.
      * left. split; [done|]. intros [? | ?]; [congruence | done].
    + destruct (Z.leb_spec 0 (rfind_from c s (i + 1))) as [_|Hneg]; [|lia].
      right. split; [lia|]. exists (x :: pre), post.
      split; [by rewrite Hs|]. split; [|done].
      cbn [length]. rewrite Hlen. lia.
Qed.

Lemma skip_leading_dots_Some n p : forall filenameIndex dotIndex r,
  skip_leading_dots n p filenameIndex dotIndex = Some r ->
  r = (slice_to p dotIndex, slice_from p dotIndex).
Proof.
  induction n as [|n IH]; intros filenameIndex dotIndex r; [done|].
  cbn [skip_leading_dots]. case_bool_decide; [congruence | apply IH].
Qed.

Lemma In_drop {A} (x : A) n (l : list A) : In x (drop n l) -> In x l.
Proof.
  revert l. induction n as [|n IH]; intros [|y l]; simpl; auto.
Qed.

(** The two parts [splitext] returns make up the path; the second is
    empty, or a dot followed by characters that are neither dots nor
    slashes. *)
Lemma splitext_spec p root ext :
  splitext p = (root, ext) ->
  root ++ ext = p
  /\ (ext = [] \/ exists e, ext = dot :: e /\ ~ In dot e /\ ~ In slash e).
Proof.
  unfold splitext.
  destruct (Z.gtb_spec (rfind dot p) (rfind slash p)) as [Hgt|_];
    [|intros [= <- <-]; split; [apply app_nil_r | by left]].
  destruct (skip_leading_dots _ _ _ _) as [r|] eqn:Hskip;
    [|intros [= <- <-]; split; [apply app_nil_r | by left]].
  apply skip_leading_dots_Some in Hskip. subst r.
  intros [= <- <-]. unfold slice_to, slice_from.
  split; [apply take_drop|]. right.
  unfold rfind in *.
  destruct (rfind_from_spec dot p 0 ltac:(lia))
    as [[Hd _] | (Hd & pre & post & Hp & Hlen & Hpost)].
  { destruct (rfind_from_spec slash p 0 ltac:(lia)) as [[Hs _] | (Hs & _)]; lia. }
  rewrite Z.sub_0_r in Hlen.
  assert (Hdrop : forall (h : list N) x t, drop (S (length h)) (h ++ x :: t) = t).
  { intros h x t. induction h as [|y h IHh]; [done | apply IHh]. }
  exists post. rewrite <- Hlen.
  split; [by rewrite Hp, drop_app_length|]. split; [done|].
  destruct (rfind_from_spec slash p 0 ltac:(lia))
    as [[_ Hnot] | (Hs & pre' & post' & Hp' & Hlen' & Hpost')].
  - intros Hin. apply Hnot. rewrite Hp.
    apply in_or_app. right. by right.
  - rewrite Z.sub_0_r in Hlen'.
    assert (Hlt : (length pre' < length pre)%nat) by lia.
    assert (H1 : drop (S (length pre)) p = post) by (rewrite Hp; apply Hdrop).
    assert (H2 : drop (S (length pre')) p = post') by (rewrite Hp'; apply Hdrop).
    assert (Hpost_eq : post = drop (length pre - length pre') post').
    { rewrite <- H1, <- H2, drop_drop. f_equal. lia. }
    intros Hin. apply Hpost'. rewrite Hpost_eq in Hin. by apply In_drop in Hin.
Qed.

(** ** Rows the loop cannot take *)

Lemma for_rows_app (l1 l2 : reader) body s :
  for_rows (l1 ++ l2) body s
  = match for_rows l1 body s with
    | OK (_, s') => for_rows l2 body s'
    | Raised e => Raised e
    end.
Proof.
  revert s. induction l1 as [|[fields|e] l1 IH]; intros s; [done| |done].
  cbn [app for_rows]. unfold mbind, M_bind.
  destruct (body fields s) as [[[] s']|e]; [apply IH | done].
Qed.

Lemma unpack3_malformed (fields : list str) s :
  length fields <> 3%nat -> unpack3 fields s = Raised ValueError.
Proof. by destruct fields as [|c [|d [|t [|x fields]]]]. Qed.

(** A row without exactly three fields stops the loop with [ValueError],
    after the entries of the rows before it. *)
Lemma create_xml_structure_malformed header (rows : list row) fields rest :
  length fields <> 3%nat ->
  create_xml_structure (Row header :: map Row3 rows ++ Row fields :: rest) []
  = Raised ValueError.
Proof.
  intros Hlen. rewrite create_xml_structure_static.
  unfold mbind at 1, M_bind at 1. rewrite for_rows_app.
  rewrite (for_rows_run 15 rows static_store ltac:(simpl; lia)).
  cbn [for_rows]. unfold mbind at 1, M_bind at 1.
  unfold entry_body. unfold mbind at 1, M_bind at 1.
  by rewrite unpack3_malformed.
Qed.

(** An exception raised by the reader while the rows are read leaves
    [create_xml_structure]. *)
Lemma create_xml_structure_reader_raises header (rows : list row) e rest :
  create_xml_structure (Row header :: map Row3 rows ++ Throw e :: rest) []
  = Raised e.
Proof.
  rewrite create_xml_structure_static.
  unfold mbind at 1, M_bind at 1. rewrite for_rows_app.
  by rewrite (for_rows_run 15 rows static_store ltac:(simpl; lia)).
Qed.

Lemma create_xml_structure_empty s :
  create_xml_structure [] s = Raised StopIteration.
Proof. reflexivity. Qed.

Lemma create_xml_structure_header_raises e rest s :
  create_xml_structure (Throw e :: rest) s = Raised e.
Proof. reflexivity. Qed.

(** ** Opening a path that has no entry *)

(** The walk to a path goes through when each directory on the way is the
    root or a directory of the file system. *)
Lemma obstacle_None (w : world) (dirs : list str) :
  obstacle w dirs = None
  <-> Forall (fun d => d = [] \/ fs w !! d = Some Dir) dirs.
Proof.
  induction dirs as [|d dirs IH]; [done|].
  rewrite List.Forall_cons_iff, <- IH. cbn [obstacle].
  destruct d as [|c d].
  { split; [intros Hrest; split; [by left | done] | by intros [_ Hrest]]. }
  destruct (fs w !! (c :: d)) as [[|writable data]|].
  - split; [intros Hrest; split; [by right | done] | by intros [_ Hrest]].
  - split; [done | by intros [[?|?] _]].
  - split; [done | by intros [[?|?] _]].
Qed.

(** It stops with [NotADirectoryError] at a regular file only, and with
    [FileNotFoundError] otherwise. *)
Lemma obstacle_Some (w : world) (dirs : list str) e :
  obstacle w dirs = Some e ->
  (e = NotADirectoryError
   /\ exists d writable data,
        In d dirs /\ fs w !! d = Some (File writable data))
  \/ (e = FileNotFoundError /\ exists d, In d dirs /\ fs w !! d = None).
Proof.
  induction dirs as [|d dirs IH]; [done|]. cbn [obstacle].
  assert (Hrest : obstacle w dirs = Some e ->
    (e = NotADirectoryError
     /\ exists d' writable data,
          In d' (d :: dirs) /\ fs w !! d' = Some (File writable data))
    \/ (e = FileNotFoundError
        /\ exists d', In d' (d :: dirs) /\ fs w !! d' = None)).
  { intros Hdirs.
    destruct (IH Hdirs) as [(-> & d' & writable & data & Hin & Hd')
                           | (-> & d' & Hin & Hd')].
    - left. split; [done|]. exists d', writable, data. split; [by right | done].
    - right. split; [done|]. exists d'. split; [by right | done]. }
  destruct d as [|c d]; [exact Hrest|].
  destruct (fs w !! (c :: d)) as [[|writable data]|] eqn:Hd; [exact Hrest | |].
  - intros [= <-]. left. split; [done|].
    exists (c :: d), writable, data. split; [by left | done].
  - intros [= <-]. right. split; [done|]. exists (c :: d). split; [by left | done].
Qed.

(** A path without entry that runs through no regular file, and does not
    name a directory by a final slash, is not found. *)
Lemma open_r_missing (w : world) (path : str) :
  fs w !! path = None ->
  (forall d writable data,
     In d (directories path) -> fs w !! d <> Some (File writable data)) ->
  ends_with_slash path = false ->
  open_r w path = Raised FileNotFoundError.
Proof.
  intros Hpath Hdirs Hslash. unfold open_r. rewrite Hpath, Hslash.
  destruct (obstacle w (directories path)) as [e|] eqn:Hwalk; [|done].
  destruct (obstacle_Some _ _ _ Hwalk)
    as [(_ & d & writable & data & Hin & Hd) | (-> & _)]; [|done].
  by destruct (Hdirs d writable data Hin).
Qed.

(** A path without entry that runs through a regular file, the directories
    before it being there, is refused with [NotADirectoryError]. *)
Lemma open_r_through_file (w : world) (path : str) :
  fs w !! path = None ->
  obstacle w (directories path) = Some NotADirectoryError ->
  open_r w path = Raised NotADirectoryError.
Proof. intros Hpath Hwalk. unfold open_r. by rewrite Hpath, Hwalk. Qed.

(** ** Escaping *)

Lemma replace_app old new a b :
  replace old new (a ++ b) = replace old new a ++ replace old new b.
Proof. apply flat_map_app. Qed.

Lemma In_replace c old new s :
  In c (replace old new s) -> (c <> old /\ In c s) \/ In c new.
Proof.
  unfold replace. rewrite in_flat_map. intros (x & Hx & Hc).
  destruct (N.eqb_spec x old) as [->|Hne]; [by right|].
  left. destruct Hc as [<-|[]]. by split.
Qed.

Lemma forallb_replace (P : N -> bool) old new s :
  forallb P new = true -> forallb P s = true ->
  forallb P (replace old new s) = true.
Proof.
  intros Hnew. induction s as [|x s IH]; [done|].
  cbn [forallb replace flat_map]. intros [Hx Hs]%andb_prop.
  rewrite forallb_app. fold (replace old new s). rewrite (IH Hs), andb_true_r.
  destruct (x =? old)%N; [done|]. simpl. by rewrite Hx.
Qed.

Section Escaping.

Variable quot_in_text : bool.

Lemma write_data_app a b :
  write_data quot_in_text (a ++ b)
  = write_data quot_in_text a ++ write_data quot_in_text b.
Proof.
  unfold write_data. rewrite !replace_app.
  destruct quot_in_text; by rewrite !replace_app.
Qed.

Ltac not_in_lit H := vm_compute in H; intuition discriminate.

(** Character data leaves [write_data] without angle brackets. *)
Lemma write_data_no_angle s :
  ~ In lt (write_data quot_in_text s) /\ ~ In gt (write_data quot_in_text s).
Proof.
  unfold write_data. split; intros Hin.
  - apply In_replace in Hin as [[_ Hin] | Hin]; [|not_in_lit Hin].
    assert (Hlt : In lt (replace lt (lit "&lt;") (replace amp (lit "&amp;") s))).
    { destruct quot_in_text; [|done].
      apply In_replace in Hin as [[_ Hin] | Hin]; [done | not_in_lit Hin]. }
    apply In_replace in Hlt as [[Hne _] | Hlt]; [done | not_in_lit Hlt].
  - apply In_replace in Hin as [[Hne _] | Hin]; [done | not_in_lit Hin].
Qed.

Lemma write_data_valid s :
  forallb xml_char s = true ->
  forallb xml_char (write_data quot_in_text s) = true.
Proof.
  intros Hs. unfold write_data.
  apply forallb_replace; [done|].
  destruct quot_in_text; repeat (apply forallb_replace; [done|]); done.
Qed.

(** The wrapped definition, escaped: the paragraph's tags are spelled with
    entities around the escaped definition. *)
Lemma write_data_definition_html d :
  write_data quot_in_text (definition_html d)
  = lit "&lt;p dir="
    ++ (if quot_in_text then lit "&quot;ltr&quot; style=&quot;text-align: left;&quot;"
        else [dquote] ++ lit "ltr" ++ [dquote] ++ lit " style="
             ++ [dquote] ++ lit "text-align: left;" ++ [dquote])
    ++ lit "&gt;" ++ write_data quot_in_text d ++ lit "&lt;br/&gt;&lt;/p&gt;".
Proof.
  unfold definition_html. rewrite !write_data_app.
  assert (Hclose : write_data quot_in_text p_close = lit "&lt;br/&gt;&lt;/p&gt;")
    by (by destruct quot_in_text).
  rewrite Hclose.
  destruct quot_in_text; reflexivity.
Qed.

End Escaping.

(** Line ends: nothing to normalize in the paragraph's opening tag. *)
Lemma normalize_eol_definition_html d :
  normalize_eol (definition_html d)
  = p_open ++ normalize_eol (d ++ p_close).
Proof. reflexivity. Qed.

Lemma normalize_eol_app a b :
  match b with c :: _ => c <> newline | [] => True end ->
  normalize_eol (a ++ b) = normalize_eol a ++ normalize_eol b.
Proof.
  intros Hb. remember (length a) as n eqn:Hn. revert a Hn.
  induction n as [n IH] using lt_wf_ind. intros a Hn.
  destruct a as [|x a]; [done|].
  cbn [app normalize_eol]. destruct (x =? 13)%N.
  - destruct a as [|y a].
    + destruct b as [|c b]; [done|]. cbn [app].
      by destruct (N.eqb_spec c newline).
    + cbn [app]. destruct (y =? newline)%N; cbn [app]; f_equal.
      * apply (IH (length a)); [simpl in Hn; lia | done].
      * apply (IH (length (y :: a)) ltac:(simpl in *; lia) (y :: a) eq_refl).
  - cbn [app]. f_equal. apply (IH (length a)); [simpl in Hn; lia | done].
Qed.

Lemma normalize_eol_valid s :
  forallb xml_char s = true -> forallb xml_char (normalize_eol s) = true.
Proof.
  remember (length s) as n eqn:Hn. revert s Hn.
  induction n as [n IH] using lt_wf_ind. intros s Hn.
  destruct s as [|x s]; [done|].
  cbn [forallb normalize_eol]. intros [Hx Hs]%andb_prop.
  destruct (x =? 13)%N.
  - cbn [forallb]. destruct s as [|y s]; [done|].
    cbn [forallb] in Hs. apply andb_prop in Hs as [Hy Hs].
    change (xml_char newline) with true. cbn [andb].
    destruct (y =? newline)%N.
    + apply (IH (length s)); [simpl in Hn; lia | done | done].
    + apply (IH (length (y :: s)) ltac:(simpl in *; lia) (y :: s) eq_refl).
      cbn [forallb]. by rewrite Hy, Hs.
  - cbn [forallb]. rewrite Hx. cbn [andb].
    apply (IH (length s)); [simpl in Hn; lia | done | done].
Qed.

Lemma normalize_definition_html d :
  normalize_eol (definition_html d) = definition_html (normalize_eol d).
Proof.
  rewrite normalize_eol_definition_html. unfold definition_html. f_equal.
  by rewrite normalize_eol_app.
Qed.

(** ** The pretty-printed text is made of XML characters *)

Lemma forallb_flat_map {A} (P : N -> bool) (f : A -> list N) (l : list A) :
  Forall (fun x => forallb P (f x) = true) l ->
  forallb P (flat_map f l) = true.
Proof.
  induction 1 as [|x l Hx _ IH]; [done|].
  cbn [flat_map]. by rewrite forallb_app, Hx, IH.
Qed.

Lemma tree_ok_text_ok t : tree_ok t = true -> text_ok t = true.
Proof.
  induction t as [tg tx ks IH] using etree_children_ind.
  cbn [tree_ok text_ok]. intros [[_ Htx]%andb_prop Hks]%andb_prop.
  rewrite Htx. cbn [andb].
  induction IH as [|k ks Hk _ IHks]; [done|].
  cbn [forallb] in *. apply andb_prop in Hks as [Hk' Hks].
  by rewrite (Hk Hk'), (IHks Hks).
Qed.

Section Printing.

Variable quot_in_text : bool.

Abbreviation writexml' := (writexml quot_in_text (lit "  ") [newline]).

(** The branch of [writexml] for an element with several children, or
    one that is not a text. *)
Lemma writexml_nested indent tagName (childNodes : list dom) :
  (forall data, childNodes <> [DText data]) ->
  childNodes <> [] ->
  writexml' indent (DElement tagName childNodes)
  = indent ++ lit "<" ++ tagName ++ lit ">" ++ [newline]
    ++ flat_map (writexml' (indent ++ lit "  ")) childNodes
    ++ indent ++ lit "</" ++ tagName ++ lit ">" ++ [newline].
Proof.
  intros Hnot1 Hnot0.
  destruct childNodes as [|[tg cs|data] [|c childNodes]]; try done.
  by destruct (Hnot1 data).
Qed.

Lemma writexml_valid t :
  tree_ok t = true ->
  forall indent,
    forallb xml_char indent = true ->
    forallb xml_char (writexml' indent (dom_of t)) = true.
Proof.
  induction t as [tg tx ks IH] using etree_children_ind.
  cbn [tree_ok]. intros [[Htg Htx]%andb_prop Hks]%andb_prop indent Hind.
  assert (Hkids : Forall (fun c => forallb xml_char
                                     (writexml' (indent ++ lit "  ") c) = true)
                         (map dom_of ks)).
  { clear Htx. induction IH as [|k ks Hk _ IHks]; [constructor|].
    cbn [forallb] in Hks. apply andb_prop in Hks as [Hk' Hks].
    cbn [map]. constructor; [|by apply IHks].
    apply Hk; [done|]. by rewrite forallb_app, Hind. }
  cbn [dom_of]. destruct (truthy (text_of tx)) eqn:Htruthy.
  - pose proof (normalize_eol_valid _ Htx) as Hnorm.
    destruct ks as [|k ks].
    + cbn [map app writexml].
      rewrite !forallb_app, Hind, Htg, (write_data_valid _ _ Hnorm). done.
    + rewrite writexml_nested; [|by intros data | done].
      rewrite !forallb_app, Hind, Htg. cbn [app].
      change (flat_map ?f (?c :: ?l)) with (f c ++ flat_map f l).
      cbn [writexml]. rewrite !forallb_app.
      rewrite write_data_valid
        by (by rewrite !forallb_app, Hind, Hnorm).
      by rewrite (forallb_flat_map _ _ _ Hkids).
  - cbn [app]. destruct ks as [|k ks].
    + cbn [map writexml]. by rewrite !forallb_app, Hind, Htg.
    + rewrite writexml_nested;
        [| destruct k; by intros data | done].
      rewrite !forallb_app, Hind, Htg.
      by rewrite (forallb_flat_map _ _ _ Hkids).
Qed.

End Printing.

(** ** Characters of the tokens and of the tree *)

Lemma In_lstrip c s : In c (lstrip s) -> In c s.
Proof.
  induction s as [|x s IH]; [done|].
  cbn [lstrip]. destruct (is_space x); [right; auto | done].
Qed.

Lemma In_strip c s : In c (strip s) -> In c s.
Proof.
  unfold strip, rstrip. intros Hin.
  apply In_lstrip. apply in_rev. apply In_lstrip. by apply in_rev.
Qed.

Lemma In_split c sep s piece :
  In piece (split sep s) -> In c piece -> In c s.
Proof.
  revert piece. induction s as [|x s IH]; intros piece.
  - intros [<-|[]] [].
  - cbn [split]. destruct (x =? sep)%N.
    + intros [<-|Hp]; [done|]. right. by apply (IH piece).
    + destruct (split sep s) as [|p ps].
      * intros [<-|[]] [<-|[]]. by left.
      * intros [<-|Hp] Hc.
        -- destruct Hc as [<-|Hc]; [by left|]. right. apply (IH p); [by left|done].
        -- right. apply (IH piece); [by right|done].
Qed.

Lemma In_tag_list c tags token :
  In token (tag_list tags) -> In c token -> In c tags.
Proof.
  unfold tag_list. rewrite in_flat_map. intros (piece & Hpiece & Htoken) Hc.
  destruct (truthy (strip piece)); [|done].
  destruct Htoken as [<-|[]].
  apply (In_split c comma tags piece); [done|]. by apply In_strip.
Qed.

Lemma tag_list_valid tags :
  forallb xml_char tags = true ->
  Forall (fun token => forallb xml_char token = true) (tag_list tags).
Proof.
  rewrite forallb_forall. intros Htags.
  apply List.Forall_forall. intros token Htoken.
  apply forallb_forall. intros c Hc. apply Htags.
  by apply (In_tag_list c tags token).
Qed.

Lemma tree_ok_entry_tree (r : row) :
  row_ok r = true -> tree_ok (entry_tree r) = true.
Proof.
  destruct r as [[concept definition] tags]. unfold row_ok.
  intros [[Hc Hd]%andb_prop Ht]%andb_prop.
  unfold entry_tree, leaf. cbn [tree_ok text_of forallb].
  rewrite Hc. unfold definition_html. rewrite !forallb_app, Hd.
  assert (Haliases : forallb tree_ok (map alias_tree (tag_list tags)) = true).
  { induction (tag_list_valid tags Ht) as [|token tokens Htoken _ IH]; [done|].
    cbn [map forallb]. rewrite IH.
    unfold alias_tree, leaf. cbn [tree_ok text_of forallb]. by rewrite Htoken. }
  by rewrite Haliases.
Qed.

Lemma tree_ok_glossary_tree (rows : list row) :
  Forall (fun r => row_ok r = true) rows ->
  tree_ok (glossary_tree rows) = true.
Proof.
  intros Hrows.
  assert (Hentries : forallb tree_ok (map entry_tree rows) = true).
  { induction Hrows as [|r rows Hr _ IH]; [done|].
    cbn [map forallb]. by rewrite (tree_ok_entry_tree r Hr), IH. }
  unfold glossary_tree, leaf. cbn [tree_ok text_of forallb].
  by rewrite Hentries.
Qed.

(** ** UTF-8 *)

Lemma utf8_char_valid c : xml_char c = true -> is_Some (utf8_char c).
Proof.
  unfold xml_char, utf8_char. intros Hc.
  destruct (c <? 128)%N; [by eexists|].
  destruct (c <? 2048)%N; [by eexists|].
  destruct ((55296 <=? c) && (c <=? 57343))%N eqn:Hsurrogate.
  { apply andb_prop in Hsurrogate as [H1%N.leb_le H2%N.leb_le].
    rewrite !orb_true_iff, !andb_true_iff, !N.eqb_eq, !N.leb_le in Hc. lia. }
  destruct (c <? 65536)%N; [by eexists|].
  destruct (N.ltb_spec c 1114112); [by eexists|].
  rewrite !orb_true_iff, !andb_true_iff, !N.eqb_eq, !N.leb_le in Hc. lia.
Qed.

Lemma utf8_encode_valid s :
  forallb xml_char s = true -> is_Some (utf8_encode s).
Proof.
  intros Hs. unfold utf8_encode.
  assert (Hchars : is_Some (mapM utf8_char s)).
  { apply mapM_is_Some. apply List.Forall_forall. intros c Hc.
    apply utf8_char_valid. rewrite forallb_forall in Hs. by apply Hs. }
  destruct Hchars as [bytes ->]. by eexists.
Qed.

(** ** Where an element is printed *)

Lemma occurs_in_trans x y z : occurs_in x y -> occurs_in y z -> occurs_in x z.
Proof.
  intros (b1 & a1 & ->) (b2 & a2 & ->).
  exists (b2 ++ b1), (a1 ++ a2). by rewrite <- !app_assoc.
Qed.

Section Where.

Variable quot_in_text : bool.

Abbreviation writexml' := (writexml quot_in_text (lit "  ") [newline]).

(** A child is printed inside its parent, one step further in. *)
Lemma tree_child_occurs indent tg tx ks k :
  In k ks ->
  occurs_in (writexml' (indent ++ lit "  ") (dom_of k))
            (writexml' indent (dom_of (Elem tg tx ks))).
Proof.
  intros Hk. cbn [dom_of].
  set (T := if truthy (text_of tx) then _ else _).
  assert (Hin : In (dom_of k) (T ++ map dom_of ks))
    by (apply in_or_app; right; by apply in_map).
  rewrite writexml_nested.
  - apply in_split in Hin as (l1 & l2 & ->).
    rewrite flat_map_app. cbn [flat_map].
    eexists (indent ++ lit "<" ++ tg ++ lit ">" ++ [newline] ++ flat_map _ l1), _.
    rewrite <- !app_assoc. reflexivity.
  - intros data. destruct ks as [|k0 ks]; [done|].
    subst T. destruct (truthy (text_of tx)); [done|].
    by destruct k0.
  - by destruct (T ++ map dom_of ks).
Qed.

(** The line of a [DEFINITION] element. *)
Lemma writexml_definition indent d :
  writexml' indent (dom_of (leaf (lit "DEFINITION") (definition_html d)))
  = indent ++ lit "<DEFINITION>"
    ++ write_data quot_in_text (normalize_eol (definition_html d))
    ++ lit "</DEFINITION>" ++ [newline].
Proof. reflexivity. Qed.

(** The definition of every row has its line in the document, eight
    spaces in. *)
Lemma definition_line_occurs (rows : list row) (r : row) :
  In r rows ->
  occurs_in (lit "        <DEFINITION>"
             ++ write_data quot_in_text (normalize_eol (definition_html r.1.2))
             ++ lit "</DEFINITION>" ++ [newline])
            (toprettyxml quot_in_text (dom_of (glossary_tree rows))).
Proof.
  intros Hr.
  apply (occurs_in_trans _
           (writexml' [] (dom_of (glossary_tree rows)))).
  2:{ exists (lit "<?xml version=" ++ [dquote] ++ lit "1.0" ++ [dquote]
              ++ lit " encoding=" ++ [dquote] ++ lit "UTF-8" ++ [dquote]
              ++ lit "?>" ++ [newline]), [].
      unfold toprettyxml. by rewrite app_nil_r, <- !app_assoc. }
  unfold glossary_tree.
  eapply occurs_in_trans; [|apply tree_child_occurs; left; reflexivity].
  eapply occurs_in_trans; [|apply tree_child_occurs; do 13 right; left; reflexivity].
  eapply occurs_in_trans; [|apply tree_child_occurs, in_map, Hr].
  destruct r as [[concept definition] tags]. unfold entry_tree.
  eapply occurs_in_trans; [|apply tree_child_occurs; right; left; reflexivity].
  rewrite writexml_definition. exists [], []. by rewrite app_nil_r.
Qed.

End Where.

(** ** Properties of the tree *)

Lemma Forall2_map_l {A B} (P : B -> A -> Prop) (f : A -> B) (l : list A) :
  (forall x, P (f x) x) -> Forall2 P (map f l) l.
Proof. intros HP. induction l; constructor; auto. Qed.

(** C1. For a header row followed by N data rows, [create_xml_structure]
    returns a tree with exactly N [ENTRY] elements, in the order of the
    rows: the k-th [ENTRY] carries the term, the wrapped definition and the
    aliases of the k-th row. Rows are not compared with one another, so
    rows repeating a term each keep their entry. *)
Theorem C1_one_entry_per_row (fields : list str) (rows : list row) :
  exists s g,
    create_xml_structure (Row fields :: map Row3 rows) [] = OK (0, s)
    /\ tree_of s 0 = Some g
    /\ length (iter (lit "ENTRY") g) = length rows
    /\ map (fun e => (findtext (lit "CONCEPT") e,
                      findtext (lit "DEFINITION") e,
                      map (findtext (lit "NAME")) (iter (lit "ALIAS") e)))
           (iter (lit "ENTRY") g)
       = map (fun r : row => (Some r.1.1,
                              Some (definition_html r.1.2),
                              map Some (tag_list r.2)))
             rows.
Proof.
  destruct (create_xml_structure_tree fields rows) as (s & Hrun & Htree).
  exists s, (glossary_tree rows). split; [exact Hrun|]. split; [exact Htree|].
  rewrite iter_entry_glossary_tree. split; [apply length_map|].
  rewrite map_map. apply map_ext. intros r.
  by rewrite findtext_concept, findtext_definition, alias_names.
Qed.

(** C2. In the entry of every data row, the [ALIAS] elements are as many
    as the tokens of the row's tag field (split on commas, each piece
    trimmed, empty pieces dropped), their [NAME]s are those tokens in
    order, and a tag field of commas and whitespace only gives none. *)
Theorem C2_alias_per_token (fields : list str) (rows : list row) :
  exists s g,
    create_xml_structure (Row fields :: map Row3 rows) [] = OK (0, s)
    /\ tree_of s 0 = Some g
    /\ Forall2 (fun e (r : row) =>
                  length (iter (lit "ALIAS") e) = length (spec_tokens r.2)
                  /\ map (findtext (lit "NAME")) (iter (lit "ALIAS") e)
                     = map Some (spec_tokens r.2)
                  /\ (blank_tags r.2 -> iter (lit "ALIAS") e = []))
               (iter (lit "ENTRY") g) rows.
Proof.
  destruct (create_xml_structure_tree fields rows) as (s & Hrun & Htree).
  exists s, (glossary_tree rows). split; [exact Hrun|]. split; [exact Htree|].
  rewrite iter_entry_glossary_tree. apply Forall2_map_l. intros r.
  rewrite alias_names, iter_alias_entry_tree, tag_list_spec_tokens.
  split; [apply length_map|]. split; [done|].
  intros Hb. by rewrite spec_tokens_blank.
Qed.

(** C3. In the entry of every data row there is one [DEFINITION] element
    and its text is the row's definition, unchanged, between the opening
    [<p dir="ltr" style="text-align: left;">] and the closing [<br/></p>]. *)
Theorem C3_definition_in_paragraph (fields : list str) (rows : list row) :
  exists s g,
    create_xml_structure (Row fields :: map Row3 rows) [] = OK (0, s)
    /\ tree_of s 0 = Some g
    /\ map (findall (lit "DEFINITION")) (iter (lit "ENTRY") g)
       = map (fun r : row =>
                [Elem (lit "DEFINITION")
                      (Some (lit "<p dir=" ++ [dquote] ++ lit "ltr" ++ [dquote]
                             ++ lit " style=" ++ [dquote]
                             ++ lit "text-align: left;" ++ [dquote] ++ lit ">"
                             ++ r.1.2 ++ lit "<br/></p>"))
                      []])
             rows.
Proof.
  destruct (create_xml_structure_tree fields rows) as (s & Hrun & Htree).
  exists s, (glossary_tree rows). split; [exact Hrun|]. split; [exact Htree|].
  rewrite iter_entry_glossary_tree, map_map. apply map_ext. intros r.
  rewrite findall_definition. unfold definition_html, p_open, p_close.
  by rewrite <- !app_assoc.
Qed.

(** C6. The first row never becomes an entry: whatever it holds, the
    outcome does not depend on it, and when it has the shape of a data
    row the entries are still those of the rows after it. *)
Theorem C6_first_row_discarded :
  (forall (header header' : list str) (rest : reader) (s : store),
     create_xml_structure (Row header :: rest) s
     = create_xml_structure (Row header' :: rest) s)
  /\ (forall (header : row) (rows : list row),
        exists s g,
          create_xml_structure (Row3 header :: map Row3 rows) [] = OK (0, s)
          /\ tree_of s 0 = Some g
          /\ length (iter (lit "ENTRY") g) = length rows
          /\ map (findtext (lit "CONCEPT")) (iter (lit "ENTRY") g)
             = map (fun r : row => Some r.1.1) rows).
Proof.
  split.
  { intros header header' rest s. unfold create_xml_structure.
    repeat (apply bind_ext; intros ? ?; cbv beta).
    reflexivity. }
  intros [[c d] t] rows.
  destruct (create_xml_structure_tree [c; d; t] rows) as (s & Hrun & Htree).
  exists s, (glossary_tree rows). split; [exact Hrun|]. split; [exact Htree|].
  rewrite iter_entry_glossary_tree. split; [apply length_map|].
  rewrite map_map. apply map_ext. intros r. apply findtext_concept.
Qed.

Lemma C2_alias_per_token_witness :
  blank_tags (lit " , ,")
  /\ exists s g,
       create_xml_structure (Row [] :: map Row3 blank_rows) [] = OK (0, s)
       /\ tree_of s 0 = Some g
       /\ Forall2 (fun e (r : row) =>
                     length (iter (lit "ALIAS") e) = length (spec_tokens r.2)
                     /\ map (findtext (lit "NAME")) (iter (lit "ALIAS") e)
                        = map Some (spec_tokens r.2)
                     /\ (blank_tags r.2 -> iter (lit "ALIAS") e = []))
                  (iter (lit "ENTRY") g) blank_rows.
Proof.
  split.
  - vm_compute.
    repeat (apply List.Forall_cons; [first [by left | by right]|]).
    apply List.Forall_nil.
  - apply (C2_alias_per_token [] blank_rows).
Defined.

(** The example of the description: two rows, the first with the aliases
    "animal" and "pet", the second with "animal". *)
Example pets_aliases :
  alias_names_of (plain_reader pets_csv)
  = Some [[Some (lit "animal"); Some (lit "pet")]; [Some (lit "animal")]].
Proof. vm_compute. reflexivity. Qed.

(** Two rows with the same term give two entries, here without aliases. *)
Example repeated_term_kept :
  alias_names_of (Row [] :: map Row3 blank_rows) = Some [[]; []].
Proof. vm_compute. reflexivity. Qed.

(** ** Properties of [main] *)

Section MainRuns.

Variable csv_reader : list N -> reader.
Variable quot_in_text : bool.

(** Any exception of the [try] body other than [FileNotFoundError]
    leaves [main]. *)
Lemma main_propagates (a : args) (w w' : world) e :
  try_body csv_reader quot_in_text a (output_path a) w = (Raised e, w') ->
  e <> FileNotFoundError ->
  main csv_reader quot_in_text a w = (Uncaught e, w').
Proof. intros Hbody Hne. unfold main. rewrite Hbody. by destruct e. Qed.

(** A malformed row ends the run with [ValueError], nothing written. *)
Lemma main_malformed_row (a : args) (w : world) writable bytes
      header (rows : list row) fields rest :
  fs w !! input_csv a = Some (File writable bytes) ->
  csv_reader bytes = Row header :: map Row3 rows ++ Row fields :: rest ->
  length fields <> 3%nat ->
  main csv_reader quot_in_text a w = (Uncaught ValueError, w).
Proof.
  intros Hfile Hrows Hlen. apply main_propagates; [|done].
  unfold try_body, open_r. rewrite Hfile, Hrows.
  by rewrite create_xml_structure_malformed.
Qed.

(** So does an exception of the reader, such as a decoding error. *)
Lemma main_reader_raises (a : args) (w : world) writable bytes
      header (rows : list row) e rest :
  fs w !! input_csv a = Some (File writable bytes) ->
  csv_reader bytes = Row header :: map Row3 rows ++ Throw e :: rest ->
  e <> FileNotFoundError ->
  main csv_reader quot_in_text a w = (Uncaught e, w).
Proof.
  intros Hfile Hrows Hne. apply main_propagates; [|done].
  unfold try_body, open_r. rewrite Hfile, Hrows.
  by rewrite create_xml_structure_reader_raises.
Qed.

(** C4, amended. When opening the input path raises [FileNotFoundError]
    (the path, or a directory on the way to it, does not exist), [main]
    prints "Error: Input file not found at '<input path>'" and returns; the
    file system is left as it was, at the output path in particular.  Any
    other exception of that [open], such as the [NotADirectoryError] of a
    path that runs through a regular file, leaves [main], and nothing is
    printed. *)
Theorem C4_missing_input_reported (a : args) (w : world) (e : exception) :
  open_r w (input_csv a) = Raised e ->
  (e = FileNotFoundError ->
   main csv_reader quot_in_text a w
   = (Returned,
      World (fs w)
            (stdout w ++ [lit "Error: Input file not found at '"
                          ++ input_csv a ++ lit "'"]))
   /\ fs (main csv_reader quot_in_text a w).2 !! output_path a
      = fs w !! output_path a)
  /\ (e <> FileNotFoundError ->
      main csv_reader quot_in_text a w = (Uncaught e, w)).
Proof.
  intros Hopen.
  assert (Hbody : try_body csv_reader quot_in_text a (output_path a) w
                  = (Raised e, w)).
  { unfold try_body. by rewrite Hopen. }
  split.
  - intros ->.
    assert (Hmain : main csv_reader quot_in_text a w
                    = (Returned, print (error_message a) w)).
    { unfold main. by rewrite Hbody. }
    rewrite Hmain. by split.
  - intros Hne. by apply main_propagates.
Qed.

(** C8. An input file that exists and yields no row at all makes
    [next] raise [StopIteration] in [create_xml_structure]; nothing
    catches it, the run ends abnormally, and neither the file system
    nor the standard output has changed. *)
Theorem C8_empty_input_aborts (a : args) (w : world) writable bytes :
  fs w !! input_csv a = Some (File writable bytes) ->
  csv_reader bytes = [] ->
  create_xml_structure (csv_reader bytes) [] = Raised StopIteration
  /\ main csv_reader quot_in_text a w = (Uncaught StopIteration, w)
  /\ exit_status (main csv_reader quot_in_text a w).1 = 1%Z.
Proof.
  intros Hfile Hempty.
  assert (Hmain : main csv_reader quot_in_text a w = (Uncaught StopIteration, w)).
  { apply main_propagates; [|done].
    unfold try_body, open_r. by rewrite Hfile, Hempty. }
  rewrite Hmain, Hempty. by repeat split.
Qed.

(** C10, amended. When opening the input file raises
    [FileNotFoundError] (the file, or a directory on the way to it, is
    missing), [main] returns after printing the error, so the exit status
    is 0, the status of every run whose conversion succeeds.  Any other
    exception of that [open], such as the [NotADirectoryError] of a path
    that runs through a regular file, is not handled: the status is 1. *)
Theorem C10_missing_input_exits_zero (a : args) (w : world) (e : exception) :
  open_r w (input_csv a) = Raised e ->
  (e = FileNotFoundError ->
   (main csv_reader quot_in_text a w).1 = Returned
   /\ exit_status (main csv_reader quot_in_text a w).1 = 0%Z
   /\ forall (a' : args) (w' w'' : world),
        try_body csv_reader quot_in_text a' (output_path a') w' = (OK tt, w'') ->
        exit_status (main csv_reader quot_in_text a' w').1
        = exit_status (main csv_reader quot_in_text a w).1)
  /\ (e <> FileNotFoundError ->
      exit_status (main csv_reader quot_in_text a w).1 = 1%Z).
Proof.
  intros Hopen.
  assert (Hbody : try_body csv_reader quot_in_text a (output_path a) w
                  = (Raised e, w)).
  { unfold try_body. by rewrite Hopen. }
  split.
  - intros ->.
    assert (Hmain : main csv_reader quot_in_text a w
                    = (Returned, print (error_message a) w)).
    { unfold main. by rewrite Hbody. }
    rewrite Hmain. split; [done|]. split; [done|].
    intros a' w' w'' Hok. unfold main. by rewrite Hok.
  - intros Hne. by rewrite (main_propagates a w w e Hbody Hne).
Qed.

End MainRuns.

(** C4 as stated fails for an input path that runs through a regular
    file: nothing is called [pets.csv/x.csv], yet [open] raises
    [NotADirectoryError], which the handler does not catch; the run ends
    with that exception and has printed nothing. *)
Lemma C4_path_through_file_not_reported :
  fs pets_world !! input_csv below_file_args = None
  /\ open_r pets_world (input_csv below_file_args) = Raised NotADirectoryError
  /\ main plain_reader true below_file_args pets_world
     = (Uncaught NotADirectoryError, pets_world)
  /\ stdout (main plain_reader true below_file_args pets_world).2 = [].
Proof. vm_compute. by repeat split. Qed.

Lemma C4_missing_input_reported_witness :
  open_r pets_world (input_csv missing_args) = Raised FileNotFoundError
  /\ main plain_reader true missing_args pets_world
     = (Returned,
        World (fs pets_world)
              [lit "Error: Input file not found at 'missing.csv'"])
  /\ main plain_reader true below_file_args pets_world
     = (Uncaught NotADirectoryError, pets_world).
Proof.
  split; [reflexivity|]. split.
  - apply (C4_missing_input_reported plain_reader true missing_args pets_world
             FileNotFoundError); reflexivity.
  - apply (C4_missing_input_reported plain_reader true below_file_args pets_world
             NotADirectoryError); [reflexivity | discriminate].
Defined.

Lemma C8_empty_input_aborts_witness :
  fs empty_world !! input_csv empty_args = Some (File true [])
  /\ plain_reader [] = []
  /\ main plain_reader true empty_args empty_world
     = (Uncaught StopIteration, empty_world).
Proof.
  split; [reflexivity|]. split; [reflexivity|].
  apply (C8_empty_input_aborts plain_reader true empty_args empty_world true []);
    reflexivity.
Defined.

(** C10 as stated fails for an input path that runs through a regular
    file: the input file is missing, no error message is printed and the
    status is 1, not the 0 of a successful conversion. *)
Lemma C10_path_through_file_exits_one :
  fs pets_world !! input_csv below_file_args = None
  /\ stdout (main plain_reader true below_file_args pets_world).2 = []
  /\ exit_status (main plain_reader true below_file_args pets_world).1 = 1%Z
  /\ exit_status (main plain_reader true pets_args pets_world).1 = 0%Z.
Proof. vm_compute. by repeat split. Qed.

Lemma C10_missing_input_exits_zero_witness :
  open_r pets_world (input_csv missing_args) = Raised FileNotFoundError
  /\ (try_body plain_reader true pets_args (output_path pets_args) pets_world).1
     = OK tt
  /\ exit_status (main plain_reader true pets_args pets_world).1
     = exit_status (main plain_reader true missing_args pets_world).1
  /\ exit_status (main plain_reader true below_file_args pets_world).1 = 1%Z.
Proof.
  split; [reflexivity|]. split; [vm_compute; reflexivity|]. split.
  - destruct (C10_missing_input_exits_zero plain_reader true missing_args
                pets_world FileNotFoundError) as [Hzero _]; [reflexivity|].
    destruct (Hzero eq_refl) as (_ & _ & Hsame).
    apply (Hsame pets_args pets_world
             (try_body plain_reader true pets_args (output_path pets_args)
                       pets_world).2).
    vm_compute. reflexivity.
  - apply (C10_missing_input_exits_zero plain_reader true below_file_args
             pets_world NotADirectoryError); [reflexivity | discriminate].
Defined.

(** C5, at an input the code takes the wrong way: the input file exists
    and converts, the directory of the output path does not exist, and the
    [FileNotFoundError] of opening the output file is caught by the
    handler meant for the input file: the run reports a missing input and
    returns, instead of ending with the exception. *)
Lemma C5_missing_output_directory_caught :
  fs pets_world !! input_csv nodir_args = Some (File true pets_csv)
  /\ open_w pets_world (output_path nodir_args) = Raised FileNotFoundError
  /\ main plain_reader true nodir_args pets_world
     = (Returned,
        World (fs pets_world)
              [lit "Error: Input file not found at 'pets.csv'"]).
Proof. vm_compute. by repeat split. Qed.

(** C7 as stated fails when the output argument is the empty string:
    the path given is not the one used. *)
Lemma C7_blank_output_argument :
  ~ (forall (a : args) (p : str), output_xml a = Some p -> output_path a = p).
Proof.
  intros Hgiven. specialize (Hgiven blank_output_args [] eq_refl).
  vm_compute in Hgiven. discriminate Hgiven.
Qed.

(** C7, amended. An output argument that is not empty is the output
    path as it stands. Without one, or with an empty one, the output path
    is the input path with the extension [os.path.splitext] finds (empty,
    or a last dot and what follows it in the file name) replaced by
    [.xml]. *)
Theorem C7_output_path (a : args) :
  (forall p : str, output_xml a = Some p -> p <> [] -> output_path a = p)
  /\ (output_xml a = None \/ output_xml a = Some [] ->
      exists root ext,
        splitext (input_csv a) = (root, ext)
        /\ root ++ ext = input_csv a
        /\ (ext = [] \/ exists e, ext = dot :: e /\ ~ In dot e /\ ~ In slash e)
        /\ output_path a = root ++ lit ".xml").
Proof.
  split.
  - intros p Hp Hne. unfold output_path. rewrite Hp. by destruct p.
  - intros Hdefault.
    destruct (splitext (input_csv a)) as [root ext] eqn:Hsplit.
    exists root, ext. destruct (splitext_spec _ _ _ Hsplit) as [Happ Hext].
    repeat split; [done | done |].
    unfold output_path. rewrite Hsplit.
    by destruct Hdefault as [-> | ->].
Qed.

Lemma C7_output_path_witness :
  output_path nodir_args = lit "out/pets.xml"
  /\ exists root ext,
       splitext (input_csv blank_output_args) = (root, ext)
       /\ root ++ ext = input_csv blank_output_args
       /\ (ext = [] \/ exists e, ext = dot :: e /\ ~ In dot e /\ ~ In slash e)
       /\ output_path blank_output_args = root ++ lit ".xml".
Proof.
  split.
  - apply (proj1 (C7_output_path nodir_args) (lit "out/pets.xml"));
      [reflexivity | discriminate].
  - apply (proj2 (C7_output_path blank_output_args)). right. reflexivity.
Defined.

(** ** The output file *)

Section OutputFile.

Variable csv_reader : list N -> reader.
Variable quot_in_text : bool.

(** A run on a header and well-formed rows of XML characters, with an
    output path that can be opened, writes the pretty-printed document,
    announces it and returns. *)
Lemma main_converts (a : args) (w w1 : world) writable bytes
      header (rows : list row) :
  fs w !! input_csv a = Some (File writable bytes) ->
  csv_reader bytes = Row header :: map Row3 rows ->
  Forall (fun r => row_ok r = true) rows ->
  open_w w (output_path a) = OK w1 ->
  exists content,
    utf8_encode (toprettyxml quot_in_text (dom_of (glossary_tree rows)))
    = Some content
    /\ main csv_reader quot_in_text a w
       = (Returned,
          World (<[output_path a := File true content]> (fs w1))
                (stdout w1 ++ [success_message a (output_path a)])).
Proof.
  intros Hfile Hrows Hok Hopen.
  destruct (create_xml_structure_tree header rows) as (s & Hrun & Htree).
  pose proof (tree_ok_glossary_tree rows Hok) as Htree_ok.
  destruct (utf8_encode_valid
              (toprettyxml quot_in_text (dom_of (glossary_tree rows))))
    as [content Hcontent].
  { unfold toprettyxml. rewrite !forallb_app.
    by rewrite (writexml_valid quot_in_text _ Htree_ok []). }
  exists content. split; [exact Hcontent|].
  unfold main, try_body, open_r. rewrite Hfile, Hrows, Hrun.
  unfold pretty_print, reparse. rewrite Htree, (tree_ok_text_ok _ Htree_ok).
  rewrite Hopen. unfold write. by rewrite Hcontent.
Qed.

(** C9. In the file a successful run writes, the definition of every
    row stands between [<DEFINITION>] and [</DEFINITION>] as character
    data: the paragraph's own tags are spelled with [&lt;] and [&gt;],
    and no angle bracket occurs between the two tags, so nothing there is
    an element. *)
Theorem C9_definition_markup_escaped (a : args) (w w1 : world) writable bytes
        header (rows : list row) :
  fs w !! input_csv a = Some (File writable bytes) ->
  csv_reader bytes = Row header :: map Row3 rows ->
  Forall (fun r => row_ok r = true) rows ->
  open_w w (output_path a) = OK w1 ->
  exists pretty_xml content,
    utf8_encode pretty_xml = Some content
    /\ (main csv_reader quot_in_text a w).1 = Returned
    /\ fs (main csv_reader quot_in_text a w).2 !! output_path a
       = Some (File true content)
    /\ forall r : row,
         In r rows ->
         exists escaped,
           occurs_in (lit "        <DEFINITION>" ++ escaped
                      ++ lit "</DEFINITION>" ++ [newline])
                     pretty_xml
           /\ ~ In lt escaped
           /\ ~ In gt escaped
           /\ escaped
              = lit "&lt;p dir="
                ++ (if quot_in_text
                    then lit "&quot;ltr&quot; style=&quot;text-align: left;&quot;"
                    else [dquote] ++ lit "ltr" ++ [dquote] ++ lit " style="
                         ++ [dquote] ++ lit "text-align: left;" ++ [dquote])
                ++ lit "&gt;"
                ++ write_data quot_in_text (normalize_eol r.1.2)
                ++ lit "&lt;br/&gt;&lt;/p&gt;".
Proof.
  intros Hfile Hrows Hok Hopen.
  destruct (main_converts a w w1 writable bytes header rows Hfile Hrows Hok Hopen)
    as (content & Hcontent & Hmain).
  exists (toprettyxml quot_in_text (dom_of (glossary_tree rows))), content.
  rewrite Hmain. split; [exact Hcontent|]. split; [done|].
  split; [apply lookup_insert_eq|].
  intros r Hr.
  exists (write_data quot_in_text (normalize_eol (definition_html r.1.2))).
  split; [by apply definition_line_occurs|].
  destruct (write_data_no_angle quot_in_text
              (normalize_eol (definition_html r.1.2))) as [Hlt Hgt].
  split; [exact Hlt|]. split; [exact Hgt|].
  rewrite normalize_definition_html. apply write_data_definition_html.
Qed.

End OutputFile.

Lemma C9_definition_markup_escaped_witness :
  exists pretty_xml content,
    utf8_encode pretty_xml = Some content
    /\ (main plain_reader true pets_args pets_world).1 = Returned
    /\ fs (main plain_reader true pets_args pets_world).2 !! output_path pets_args
       = Some (File true content)
    /\ forall r : row,
         In r pets_rows ->
         exists escaped,
           occurs_in (lit "        <DEFINITION>" ++ escaped
                      ++ lit "</DEFINITION>" ++ [newline])
                     pretty_xml
           /\ ~ In lt escaped
           /\ ~ In gt escaped
           /\ escaped
              = lit "&lt;p dir="
                ++ lit "&quot;ltr&quot; style=&quot;text-align: left;&quot;"
                ++ lit "&gt;"
                ++ write_data true (normalize_eol r.1.2)
                ++ lit "&lt;br/&gt;&lt;/p&gt;".
Proof.
  apply (C9_definition_markup_escaped plain_reader true pets_args pets_world
           pets_world_open true pets_csv
           [lit "Term"; lit "Definition"; lit "Tags"] pets_rows).
  - reflexivity.
  - vm_compute. reflexivity.
  - repeat constructor.
  - vm_compute. reflexivity.
Defined.

(** ** The alias names of line 54 *)

Lemma split_no_sep sep s piece :
  In piece (split sep s) -> ~ In sep piece.
Proof.
  revert piece. induction s as [|x s IH]; intros piece.
  - intros [<-|[]] [].
  - cbn [split]. destruct (N.eqb_spec x sep) as [->|Hne].
    + intros [<-|Hp]; [intros [] | by apply IH].
    + destruct (split sep s) as [|p ps].
      * intros [<-|[]] [Hx|[]]. by apply Hne.
      * intros [<-|Hp] Hin.
        -- destruct Hin as [Hx|Hin]; [by apply Hne|].
           by apply (IH p); [left|].
        -- by apply (IH piece); [right|].
Qed.

Lemma lstrip_head s :
  match lstrip s with [] => True | c :: _ => is_space c = false end.
Proof.
  induction s as [|x s IH]; [done|].
  cbn [lstrip]. by destruct (is_space x) eqn:Hx.
Qed.

Lemma lstrip_snoc l x :
  is_space x = false -> lstrip (l ++ [x]) = lstrip l ++ [x].
Proof.
  intros Hx. induction l as [|y l IH]; cbn [app lstrip]; [by rewrite Hx|].
  by destruct (is_space y).
Qed.

Lemma strip_trimmed s : trimmed (strip s).
Proof.
  unfold strip, rstrip. split.
  - pose proof (lstrip_head s) as Hhead.
    destruct (lstrip s) as [|x u]; [done|].
    cbn [rev]. rewrite (lstrip_snoc _ _ Hhead), rev_app_distr. done.
  - rewrite rev_involutive. apply lstrip_head.
Qed.

Lemma trimmed_strip s : trimmed s -> strip s = s.
Proof.
  intros [Hhead Hlast]. unfold strip, rstrip.
  assert (Hl : forall u, match u with [] => True | c :: _ => is_space c = false end ->
                         lstrip u = u).
  { intros [|c u] Hc; [done|]. cbn [lstrip]. by rewrite Hc. }
  rewrite (Hl s Hhead), (Hl (rev s) Hlast). apply rev_involutive.
Qed.

Lemma tag_list_tokens (tags token : str) :
  In token (tag_list tags) ->
  token <> [] /\ ~ In comma token /\ trimmed token.
Proof.
  unfold tag_list. rewrite in_flat_map. intros (piece & Hpiece & Htoken).
  destruct (truthy (strip piece)) eqn:Htruthy; [|done].
  destruct Htoken as [<-|[]].
  split; [by destruct (strip piece)|]. split; [|apply strip_trimmed].
  intros Hin. apply In_strip in Hin. by apply (split_no_sep comma tags piece).
Qed.

(** X1. The alias names are never empty, contain no comma, and neither
    start nor end with whitespace. *)
Theorem alias_names_clean (tags token : str) :
  In token (tag_list tags) ->
  token <> [] /\ ~ In comma token /\ trimmed token.
Proof. apply tag_list_tokens. Qed.

Lemma alias_names_clean_witness :
  In (lit "pet") (tag_list (lit "animal, pet"))
  /\ lit "pet" <> [] /\ ~ In comma (lit "pet") /\ trimmed (lit "pet").
Proof.
  assert (Hin : In (lit "pet") (tag_list (lit "animal, pet")))
    by (vm_compute; right; left; reflexivity).
  split; [exact Hin|].
  exact (alias_names_clean (lit "animal, pet") (lit "pet") Hin).
Defined.

Lemma split_one sep a : ~ In sep a -> split sep a = [a].
Proof.
  induction a as [|x a IH]; [done|]. intros Hnot.
  cbn [split]. destruct (N.eqb_spec x sep) as [->|Hne]; [by destruct Hnot; left|].
  rewrite IH; [done|]. intros Hin. apply Hnot. by right.
Qed.

Lemma split_app_sep sep a b :
  ~ In sep a -> split sep (a ++ sep :: b) = a :: split sep b.
Proof.
  induction a as [|x a IH]; intros Hnot.
  - cbn [app split]. by rewrite N.eqb_refl.
  - cbn [app split]. destruct (N.eqb_spec x sep) as [->|Hne]; [by destruct Hnot; left|].
    rewrite IH; [done|]. intros Hin. apply Hnot. by right.
Qed.

Lemma tag_list_join (tokens : list str) :
  Forall (fun token => token <> [] /\ ~ In comma token /\ trimmed token) tokens ->
  tag_list (join [comma] tokens) = tokens.
Proof.
  unfold tag_list.
  induction 1 as [|token tokens (Hne & Hnot & Htrim) Hrest IH]; [done|].
  destruct tokens as [|token' tokens].
  - cbn [join]. rewrite (split_one _ _ Hnot). cbn [flat_map].
    rewrite (trimmed_strip _ Htrim). by destruct token.
  - change (join [comma] (token :: token' :: tokens))
      with (token ++ comma :: join [comma] (token' :: tokens)).
    rewrite (split_app_sep _ _ _ Hnot). cbn [flat_map].
    rewrite IH, (trimmed_strip _ Htrim). by destruct token.
Qed.

(** X2. Reading a tag field is stable: the alias names joined with commas
    read back as the same alias names. *)
Theorem tag_list_round_trip (tags : str) :
  tag_list (join [comma] (tag_list tags)) = tag_list tags.
Proof.
  apply tag_list_join. apply List.Forall_forall. intros token Htoken.
  by apply (tag_list_tokens tags).
Qed.

(** ** The fixed parts of the tree *)

(** X3. Whatever the rows hold, every [ENTRY] has no text of its own and
    the same nine children in the same order, and its six flags have the
    values of lines 45-50. *)
Theorem entry_fixed_fields (fields : list str) (rows : list row) :
  exists s g,
    create_xml_structure (Row fields :: map Row3 rows) [] = OK (0, s)
    /\ tree_of s 0 = Some g
    /\ Forall (fun e =>
                 etext e = None
                 /\ map etag (kids e)
                    = [lit "CONCEPT"; lit "DEFINITION"; lit "FORMAT";
                       lit "DEFINITIONTRUST"; lit "USEDYNALINK";
                       lit "CASESENSITIVE"; lit "FULLMATCH";
                       lit "TEACHERENTRY"; lit "ALIASES"]
                 /\ map (fun tg => findtext tg e)
                        [lit "FORMAT"; lit "DEFINITIONTRUST"; lit "USEDYNALINK";
                         lit "CASESENSITIVE"; lit "FULLMATCH"; lit "TEACHERENTRY"]
                    = [Some (lit "1"); Some (lit "0"); Some (lit "0");
                       Some (lit "0"); Some (lit "0"); Some (lit "1")])
              (iter (lit "ENTRY") g).
Proof.
  destruct (create_xml_structure_tree fields rows) as (s & Hrun & Htree).
  exists s, (glossary_tree rows). split; [exact Hrun|]. split; [exact Htree|].
  rewrite iter_entry_glossary_tree. apply List.Forall_forall.
  intros e (r & <- & _)%in_map_iff.
  destruct r as [[concept definition] tags].
  split; [reflexivity|]. split; reflexivity.
Qed.

(** X4. Whatever the input, the root is [GLOSSARY] with the single child
    [INFO]; [INFO] holds the thirteen settings of lines 15-27 followed by
    [ENTRIES], and the entries are exactly the children of [ENTRIES]. *)
Theorem info_block_fixed (fields : list str) (rows : list row) :
  exists s g info,
    create_xml_structure (Row fields :: map Row3 rows) [] = OK (0, s)
    /\ tree_of s 0 = Some g
    /\ etag g = lit "GLOSSARY"
    /\ kids g = [info]
    /\ etag info = lit "INFO"
    /\ map (fun k => (etag k, etext k)) (kids info)
       = [(lit "NAME", Some (lit "Fogalomt" ++ [225%N] ++ lit "r"));
          (lit "INTRO", Some []);
          (lit "INTROFORMAT", Some (lit "1"));
          (lit "ALLOWDUPLICATEDENTRIES", Some (lit "0"));
          (lit "DISPLAYFORMAT", Some (lit "dictionary"));
          (lit "SHOWSPECIAL", Some (lit "1"));
          (lit "SHOWALPHABET", Some (lit "1"));
          (lit "SHOWALL", Some (lit "1"));
          (lit "ALLOWCOMMENTS", Some (lit "0"));
          (lit "USEDYNALINK", Some (lit "1"));
          (lit "DEFAULTAPPROVAL", Some (lit "1"));
          (lit "GLOBALGLOSSARY", Some (lit "0"));
          (lit "ENTBYPAGE", Some (lit "10"));
          (lit "ENTRIES", None)]
    /\ flat_map kids (findall (lit "ENTRIES") info) = iter (lit "ENTRY") g.
Proof.
  destruct (create_xml_structure_tree fields rows) as (s & Hrun & Htree).
  exists s, (glossary_tree rows). eexists.
  split; [exact Hrun|]. split; [exact Htree|].
  rewrite iter_entry_glossary_tree.
  split; [reflexivity|]. split; [reflexivity|]. split; [reflexivity|].
  split; [reflexivity|].
  match goal with
  | |- flat_map kids ?l = _ =>
      let H := fresh in
      assert (H : l = [Elem (lit "ENTRIES") None (map entry_tree rows)])
        by (vm_compute; reflexivity);
      rewrite H
  end.
  cbn [flat_map kids]. apply app_nil_r.
Qed.

(** ** Which texts the parser accepts *)

Lemma text_ok_alias_trees tokens :
  forallb text_ok (map alias_tree tokens) = forallb (forallb xml_char) tokens.
Proof.
  induction tokens as [|token tokens IH]; [done|].
  cbn [map forallb]. rewrite IH. unfold alias_tree, leaf.
  cbn [text_ok text_of forallb]. by rewrite !andb_true_r.
Qed.

Lemma tree_ok_alias_trees tokens :
  forallb tree_ok (map alias_tree tokens) = forallb (forallb xml_char) tokens.
Proof.
  induction tokens as [|token tokens IH]; [done|].
  cbn [map forallb]. rewrite IH. unfold alias_tree, leaf.
  cbn [tree_ok text_of forallb]. 
  change (forallb xml_char (lit "ALIAS")) with true.
  change (forallb xml_char (lit "NAME")) with true.
  by rewrite !andb_true_r.
Qed.

Lemma text_ok_entry_tree (r : row) : text_ok (entry_tree r) = row_texts_ok r.
Proof.
  destruct r as [[concept definition] tags]. unfold entry_tree, leaf, row_texts_ok.
  cbn [text_ok text_of forallb]. rewrite text_ok_alias_trees.
  unfold definition_html. rewrite !forallb_app.
  destruct (forallb xml_char concept), (forallb xml_char definition),
    (forallb (forallb xml_char) (tag_list tags)); reflexivity.
Qed.

Lemma tree_ok_entry_tree_texts (r : row) : tree_ok (entry_tree r) = row_texts_ok r.
Proof.
  destruct r as [[concept definition] tags]. unfold entry_tree, leaf, row_texts_ok.
  cbn [tree_ok text_of forallb]. rewrite tree_ok_alias_trees.
  unfold definition_html. rewrite !forallb_app.
  destruct (forallb xml_char concept), (forallb xml_char definition),
    (forallb (forallb xml_char) (tag_list tags)); reflexivity.
Qed.

Lemma forallb_map_ext {A B} (f g : B -> bool) (h : A -> B) (k : A -> bool) l :
  (forall x, f (h x) = k x) -> forallb f (map h l) = forallb k l.
Proof. intros Hf. induction l as [|x l IH]; [done|]. cbn. by rewrite Hf, IH. Qed.

Lemma text_ok_glossary_tree (rows : list row) :
  text_ok (glossary_tree rows) = forallb row_texts_ok rows.
Proof.
  unfold glossary_tree, leaf. cbn [text_ok text_of forallb].
  rewrite (forallb_map_ext text_ok text_ok entry_tree row_texts_ok)
    by apply text_ok_entry_tree.
  destruct (forallb row_texts_ok rows); reflexivity.
Qed.

Lemma tree_ok_glossary_tree_texts (rows : list row) :
  tree_ok (glossary_tree rows) = forallb row_texts_ok rows.
Proof.
  unfold glossary_tree, leaf. cbn [tree_ok text_of forallb].
  rewrite (forallb_map_ext tree_ok tree_ok entry_tree row_texts_ok)
    by apply tree_ok_entry_tree_texts.
  destruct (forallb row_texts_ok rows); reflexivity.
Qed.

(** ** Readers that let [create_xml_structure] return *)

Lemma for_rows_OK_inv entries (rest : reader) : forall s x,
  for_rows rest (entry_body entries) s = OK x ->
  exists rows : list row, rest = map Row3 rows.
Proof.
  induction rest as [|[fields|e] rest IH]; intros s x.
  - by exists [].
  - cbn [for_rows]. unfold mbind at 1, M_bind at 1.
    destruct (entry_body entries fields s) as [[[] s']|e] eqn:Hbody; [|done].
    intros Hrest. destruct (IH s' x Hrest) as [rows ->].
    destruct fields as [|c [|d [|t [|y fields]]]]; try done.
    by exists ((c, d, t) :: rows).
  - done.
Qed.

Lemma create_xml_structure_OK_inv (csv_data : reader) x :
  create_xml_structure csv_data [] = OK x ->
  exists header (rows : list row), csv_data = Row header :: map Row3 rows.
Proof.
  destruct csv_data as [|[header|e] rest];
    [rewrite create_xml_structure_empty; discriminate |
    | rewrite create_xml_structure_header_raises; discriminate].
  rewrite create_xml_structure_static. unfold mbind at 1, M_bind at 1.
  destruct (for_rows rest (entry_body 15) static_store) as [y|e] eqn:Hrows; [|done].
  intros _. destruct (for_rows_OK_inv _ _ _ _ Hrows) as [rows ->].
  by exists header, rows.
Qed.

Lemma open_w_OK (w w1 : world) path :
  open_w w path = OK w1 ->
  w1 = World (<[path := File true []]> (fs w)) (stdout w).
Proof.
  unfold open_w.
  destruct (fs w !! path) as [[|[] data]|]; try done.
  - by intros [= <-].
  - destruct (ends_with_slash path).
    + by destruct (obstacle w (directories (rstrip_slashes path))).
    + destruct (obstacle w (directories path)), path; try done.
      by intros [= <-].
Qed.

(** ** The runs of [main] *)

Section MainExtras.

Variable csv_reader : list N -> reader.
Variable quot_in_text : bool.

Lemma pretty_encodes (rows : list row) :
  forallb row_texts_ok rows = true ->
  is_Some (utf8_encode (toprettyxml quot_in_text (dom_of (glossary_tree rows)))).
Proof.
  intros Hok. apply utf8_encode_valid. unfold toprettyxml.
  rewrite !forallb_app.
  rewrite (writexml_valid quot_in_text (glossary_tree rows)); [done | | done].
  by rewrite tree_ok_glossary_tree_texts.
Qed.

(** [open] gives the bytes of a regular file only. *)
Lemma open_r_OK (w : world) path bytes :
  open_r w path = OK bytes ->
  exists writable, fs w !! path = Some (File writable bytes).
Proof.
  unfold open_r. destruct (fs w !! path) as [[|writable data]|]; [done | |].
  - intros [= <-]. by exists writable.
  - by destruct (obstacle w (directories path)), (ends_with_slash path).
Qed.

(** The [try] body either raises with the file system and the output as
    they were, or it has read a header and well-formed rows and written
    the whole document.  The output file is opened last. *)
Lemma try_body_outcome (a : args) (p : str) (w : world) :
  (exists e, try_body csv_reader quot_in_text a p w = (Raised e, w))
  \/ (exists writable bytes header (rows : list row) content,
        fs w !! input_csv a = Some (File writable bytes)
        /\ csv_reader bytes = Row header :: map Row3 rows
        /\ forallb row_texts_ok rows = true
        /\ try_body csv_reader quot_in_text a p w
           = (OK tt, World (<[p := File true content]> (fs w))
                           (stdout w ++ [success_message a p]))).
Proof.
  unfold try_body.
  destruct (open_r w (input_csv a)) as [bytes|e] eqn:Hin; [|left; by exists e].
  destruct (open_r_OK _ _ _ Hin) as [writable Hfile].
  destruct (create_xml_structure (csv_reader bytes) []) as [[xml_data s]|e] eqn:Hrun;
    [|left; by exists e].
  destruct (create_xml_structure_OK_inv _ _ Hrun) as (header & rows & Hrows).
  rewrite Hrows in Hrun.
  destruct (create_xml_structure_tree header rows) as (s' & Hrun' & Htree).
  rewrite Hrun' in Hrun. injection Hrun as <- <-.
  unfold pretty_print, reparse. rewrite Htree, text_ok_glossary_tree.
  destruct (forallb row_texts_ok rows) eqn:Hok; [|left; by exists ExpatError].
  destruct (open_w w p) as [w1|e] eqn:Hopen; [|left; by exists e].
  apply open_w_OK in Hopen as ->.
  destruct (pretty_encodes rows Hok) as [content Hcontent].
  right. exists writable, bytes, header, rows, content.
  split; [exact Hfile|]. split; [exact Hrows|]. split; [exact Hok|].
  unfold write. rewrite Hcontent.
  unfold print. cbn [fs stdout]. by rewrite insert_insert_eq.
Qed.

(** X5. From the parsed arguments on, whatever the input: no path other
    than the output path changes; the output path changes only when the
    input file was read as a header row followed by rows of three fields
    whose texts are XML characters, that is, only once the whole document
    has been built; and the standard output gains at most one line, the
    error line or the success line. *)
Theorem output_opened_last (a : args) (w : world) :
  let w' := (main csv_reader quot_in_text a w).2 in
  (forall p, p <> output_path a -> fs w' !! p = fs w !! p)
  /\ (fs w' !! output_path a <> fs w !! output_path a ->
      exists writable bytes header (rows : list row),
        fs w !! input_csv a = Some (File writable bytes)
        /\ csv_reader bytes = Row header :: map Row3 rows
        /\ Forall (fun r => row_texts_ok r = true) rows)
  /\ (stdout w' = stdout w
      \/ stdout w' = stdout w ++ [lit "Error: Input file not found at '"
                                  ++ input_csv a ++ lit "'"]
      \/ stdout w' = stdout w ++ [lit "Successfully converted '"
                                  ++ input_csv a ++ lit "' to '"
                                  ++ output_path a ++ lit "'"]).
Proof.
  cbv zeta. unfold main.
  destruct (try_body_outcome a (output_path a) w)
    as [[e ->] | (writable & bytes & header & rows & content
                  & Hfile & Hrows & Hok & ->)].
  - assert (Hfs : fs (match e with
                      | FileNotFoundError => (Returned, print (error_message a) w)
                      | _ => (Uncaught e, w)
                      end).2 = fs w) by by destruct e.
    rewrite Hfs. split; [done|]. split; [done|].
    destruct e; (by left) || (right; by left).
  - cbn [snd fs stdout]. split; [|split].
    + intros p Hp. by rewrite lookup_insert_ne.
    + intros _. exists writable, bytes, header, rows.
      split; [exact Hfile|]. split; [exact Hrows|].
      apply List.Forall_forall. intros r Hr.
      by apply (proj1 (forallb_forall _ _) Hok).
    + right. by right.
Qed.

(** The run on a header and well-formed rows with texts of XML characters. *)
Lemma main_converts_texts (a : args) (w w1 : world) writable bytes
      header (rows : list row) :
  fs w !! input_csv a = Some (File writable bytes) ->
  csv_reader bytes = Row header :: map Row3 rows ->
  forallb row_texts_ok rows = true ->
  open_w w (output_path a) = OK w1 ->
  exists content,
    utf8_encode (toprettyxml quot_in_text (dom_of (glossary_tree rows)))
    = Some content
    /\ main csv_reader quot_in_text a w
       = (Returned,
          World (<[output_path a := File true content]> (fs w))
                (stdout w ++ [success_message a (output_path a)])).
Proof.
  intros Hfile Hrows Hok Hopen.
  destruct (pretty_encodes rows Hok) as [content Hcontent].
  exists content. split; [exact Hcontent|].
  destruct (create_xml_structure_tree header rows) as (s & Hrun & Htree).
  unfold main, try_body, open_r. rewrite Hfile, Hrows, Hrun.
  unfold pretty_print, reparse. rewrite Htree, text_ok_glossary_tree, Hok.
  rewrite Hopen. apply open_w_OK in Hopen as ->.
  unfold write. rewrite Hcontent. unfold print. cbn [fs stdout].
  by rewrite insert_insert_eq.
Qed.

(** X6. A header row followed by well-formed rows whose terms,
    definitions and alias names are made of XML characters converts, when
    the output path can be opened: the success message is printed, the
    output path holds the UTF-8 bytes of the pretty-printed glossary and
    nothing else has changed. *)
Theorem conversion_succeeds (a : args) (w w1 : world) writable bytes
        header (rows : list row) :
  fs w !! input_csv a = Some (File writable bytes) ->
  csv_reader bytes = Row header :: map Row3 rows ->
  Forall (fun r => row_texts_ok r = true) rows ->
  open_w w (output_path a) = OK w1 ->
  exists content,
    utf8_encode (toprettyxml quot_in_text (dom_of (glossary_tree rows)))
    = Some content
    /\ main csv_reader quot_in_text a w
       = (Returned,
          World (<[output_path a := File true content]> (fs w))
                (stdout w ++ [lit "Successfully converted '" ++ input_csv a
                              ++ lit "' to '" ++ output_path a ++ lit "'"])).
Proof.
  intros Hfile Hrows Hok Hopen.
  apply (main_converts_texts a w w1 writable bytes header rows); try done.
  apply forallb_forall. intros r Hr.
  by apply (proj1 (List.Forall_forall _ _) Hok).
Qed.

(** X9. A file with a header row and nothing else converts to the
    glossary without entries: the output holds the declaration, the
    settings and an empty [ENTRIES] element. *)
Theorem header_only_converts (a : args) (w w1 : world) writable bytes header :
  fs w !! input_csv a = Some (File writable bytes) ->
  csv_reader bytes = [Row header] ->
  open_w w (output_path a) = OK w1 ->
  exists content,
    utf8_encode empty_glossary_document = Some content
    /\ main csv_reader quot_in_text a w
       = (Returned,
          World (<[output_path a := File true content]> (fs w))
                (stdout w ++ [lit "Successfully converted '" ++ input_csv a
                              ++ lit "' to '" ++ output_path a ++ lit "'"])).
Proof.
  intros Hfile Hrows Hopen.
  assert (Hdoc : toprettyxml quot_in_text (dom_of (glossary_tree []))
                 = empty_glossary_document)
    by (destruct quot_in_text; vm_compute; reflexivity).
  rewrite <- Hdoc.
  by apply (main_converts_texts a w w1 writable bytes header []).
Qed.

(** X7. A character that XML does not allow (a control character such as
    a vertical tab, for one) in a term, a definition or an alias name makes
    the parser of line 82 raise: the run ends with [ExpatError] and no
    output is written. *)
Theorem invalid_character_aborts (a : args) (w : world) writable bytes
        header (rows : list row) (r : row) (c : N) :
  fs w !! input_csv a = Some (File writable bytes) ->
  csv_reader bytes = Row header :: map Row3 rows ->
  In r rows ->
  In c r.1.1 \/ In c r.1.2
  \/ (exists token, In token (tag_list r.2) /\ In c token) ->
  xml_char c = false ->
  main csv_reader quot_in_text a w = (Uncaught ExpatError, w).
Proof.
  intros Hfile Hrows Hr Hc Hbad.
  assert (Hrow : row_texts_ok r = false).
  { destruct r as [[concept definition] tags]. cbn [fst snd] in Hc.
    unfold row_texts_ok.
    destruct (forallb xml_char concept) eqn:H1; [|done].
    destruct (forallb xml_char definition) eqn:H2; [|done].
    destruct (forallb (forallb xml_char) (tag_list tags)) eqn:H3; [|done].
    rewrite forallb_forall in H1, H2, H3.
    destruct Hc as [Hc | [Hc | (token & Htoken & Hc)]].
    - rewrite (H1 c Hc) in Hbad. discriminate.
    - rewrite (H2 c Hc) in Hbad. discriminate.
    - specialize (H3 token Htoken). rewrite forallb_forall in H3.
      rewrite (H3 c Hc) in Hbad. discriminate. }
  assert (Hrows_bad : forallb row_texts_ok rows = false).
  { destruct (forallb row_texts_ok rows) eqn:Hall; [|done].
    rewrite forallb_forall in Hall. by rewrite (Hall r Hr) in Hrow. }
  destruct (create_xml_structure_tree header rows) as (s & Hrun & Htree).
  unfold main, try_body, open_r. rewrite Hfile, Hrows, Hrun.
  unfold pretty_print, reparse.
  by rewrite Htree, text_ok_glossary_tree, Hrows_bad.
Qed.

(** X8. An exception the reader raises, at the header row or after any
    number of well-formed rows (a decoding error, for one), leaves [main]
    unless it is a [FileNotFoundError]; nothing is written or printed. *)
Theorem reader_exception_escapes (a : args) (w : world) writable bytes
        (items rest : reader) e :
  fs w !! input_csv a = Some (File writable bytes) ->
  csv_reader bytes = items ++ Throw e :: rest ->
  items = []
  \/ (exists header (rows : list row), items = Row header :: map Row3 rows) ->
  e <> FileNotFoundError ->
  main csv_reader quot_in_text a w = (Uncaught e, w).
Proof.
  intros Hfile Hrows Hitems Hne.
  assert (Hrun : create_xml_structure (csv_reader bytes) [] = Raised e).
  { rewrite Hrows. destruct Hitems as [-> | (header & rows & ->)].
    - apply create_xml_structure_header_raises.
    - apply create_xml_structure_reader_raises. }
  unfold main, try_body, open_r. rewrite Hfile, Hrun. by destruct e.
Qed.

End MainExtras.

Lemma conversion_succeeds_witness :
  exists content,
    utf8_encode (toprettyxml true (dom_of (glossary_tree pets_rows)))
    = Some content
    /\ main plain_reader true pets_args pets_world
       = (Returned,
          World (<[output_path pets_args := File true content]> (fs pets_world))
                (stdout pets_world
                 ++ [lit "Successfully converted '" ++ input_csv pets_args
                     ++ lit "' to '" ++ output_path pets_args ++ lit "'"])).
Proof.
  apply (conversion_succeeds plain_reader true pets_args pets_world
           pets_world_open true pets_csv
           [lit "Term"; lit "Definition"; lit "Tags"] pets_rows).
  - reflexivity.
  - vm_compute. reflexivity.
  - repeat constructor.
  - vm_compute. reflexivity.
Defined.

Lemma invalid_character_aborts_witness :
  main plain_reader true vtab_args vtab_world = (Uncaught ExpatError, vtab_world).
Proof.
  apply (invalid_character_aborts plain_reader true vtab_args vtab_world true
           (lit "Term;Definition;Tags" ++ [newline]
            ++ lit "Cat;A" ++ [11%N] ++ lit "B;pet" ++ [newline])
           [lit "Term"; lit "Definition"; lit "Tags"] vtab_rows
           (lit "Cat", lit "A" ++ [11%N] ++ lit "B", lit "pet") 11%N).
  - reflexivity.
  - vm_compute. reflexivity.
  - left. reflexivity.
  - right. left. vm_compute. right. left. reflexivity.
  - reflexivity.
Defined.

Lemma reader_exception_escapes_witness :
  main plain_reader true latin_args latin_world
  = (Uncaught UnicodeDecodeError, latin_world).
Proof.
  apply (reader_exception_escapes plain_reader true latin_args latin_world true
           [233%N] [] [] UnicodeDecodeError).
  - reflexivity.
  - reflexivity.
  - left. reflexivity.
  - discriminate.
Defined.

(** X11. A row that does not have exactly three fields (a blank line, a
    missing or an extra semicolon), after the header and any number of
    well-formed rows, ends the run with [ValueError] and status 1; the
    entries built so far are dropped and nothing is written or printed. *)
Theorem malformed_row_aborts (csv_reader : list N -> reader) (quot_in_text : bool)
        (a : args) (w : world) writable bytes
        header (rows : list row) fields rest :
  fs w !! input_csv a = Some (File writable bytes) ->
  csv_reader bytes = Row header :: map Row3 rows ++ Row fields :: rest ->
  length fields <> 3%nat ->
  main csv_reader quot_in_text a w = (Uncaught ValueError, w)
  /\ exit_status (main csv_reader quot_in_text a w).1 = 1%Z.
Proof.
  intros Hfile Hrows Hlen.
  by rewrite (main_malformed_row csv_reader quot_in_text a w writable bytes
                header rows fields rest Hfile Hrows Hlen).
Qed.

Lemma malformed_row_aborts_witness :
  main plain_reader true short_args short_world = (Uncaught ValueError, short_world)
  /\ exit_status (main plain_reader true short_args short_world).1 = 1%Z.
Proof.
  apply (malformed_row_aborts plain_reader true short_args short_world true
           (lit "Term;Definition;Tags" ++ [newline]
            ++ lit "Cat;A small animal" ++ [newline])
           [lit "Term"; lit "Definition"; lit "Tags"] []
           [lit "Cat"; lit "A small animal"] []).
  - reflexivity.
  - vm_compute. reflexivity.
  - vm_compute. discriminate.
Defined.

Lemma header_only_converts_witness :
  exists content,
    utf8_encode empty_glossary_document = Some content
    /\ main plain_reader true header_args header_world
       = (Returned,
          World (<[output_path header_args := File true content]> (fs header_world))
                (stdout header_world
                 ++ [lit "Successfully converted '" ++ input_csv header_args
                     ++ lit "' to '" ++ output_path header_args ++ lit "'"])).
Proof.
  apply (header_only_converts plain_reader true header_args header_world
           header_world_open true
           (lit "Term;Definition;Tags" ++ [newline])
           [lit "Term"; lit "Definition"; lit "Tags"]).
  - reflexivity.
  - vm_compute. reflexivity.
  - vm_compute. reflexivity.
Defined.

(** ** The default output path *)

Lemma rfind_from_notin c s : forall i, ~ In c s -> rfind_from c s i = (-1)%Z.
Proof.
  induction s as [|x s IH]; intros i Hnot; [done|].
  cbn [rfind_from]. rewrite IH by (intros Hin; apply Hnot; by right).
  cbn [Z.leb Z.compare]. destruct (N.eqb_spec x c) as [->|Hne]; [|done].
  destruct Hnot. by left.
Qed.

Lemma rfind_from_last c pre post : forall i,
  (0 <= i)%Z -> ~ In c post ->
  rfind_from c (pre ++ c :: post) i = (i + Z.of_nat (length pre))%Z.
Proof.
  induction pre as [|y pre IH]; intros i Hi Hnot.
  - cbn [app rfind_from length]. rewrite (rfind_from_notin c post _ Hnot).
    cbn [Z.leb Z.compare]. rewrite N.eqb_refl. lia.
  - cbn [app rfind_from]. rewrite IH by (lia || done).
    destruct (Z.leb_spec 0 (i + 1 + Z.of_nat (length pre))); [|lia].
    cbn [length]. lia.
Qed.

(** X10. For an input [dir/name.ext] (the directory part may be absent,
    the name does not start with a dot) given without an output argument,
    the output path is [dir/name.xml]; so an input that already ends in
    [.xml] is its own output path and a successful run overwrites it. *)
Theorem default_output_path (dir name ext : str) (x : N) :
  dir = [] \/ (exists d, dir = d ++ [slash]) ->
  x <> dot -> x <> slash ->
  ~ In slash name -> ~ In slash ext -> ~ In dot ext ->
  output_path (Args (dir ++ x :: name ++ dot :: ext) None)
  = dir ++ x :: name ++ lit ".xml"
  /\ (ext = lit "xml" ->
      output_path (Args (dir ++ x :: name ++ dot :: ext) None)
      = dir ++ x :: name ++ dot :: ext).
Proof.
  intros Hdir Hx Hx' Hname Hext Hext'.
  set (p := dir ++ x :: name ++ dot :: ext).
  assert (Hdot : rfind dot p = Z.of_nat (length (dir ++ x :: name))).
  { unfold rfind, p.
    replace (dir ++ x :: name ++ dot :: ext)
      with ((dir ++ x :: name) ++ dot :: ext) by (by rewrite <- app_assoc).
    rewrite rfind_from_last by (lia || done). lia. }
  assert (Hsep : rfind slash p = (Z.of_nat (length dir) - 1)%Z).
  { assert (Htail : ~ In slash (x :: name ++ dot :: ext)).
    { by intros [Heq | [Hin | [Heq | Hin]]%in_app_or]. }
    unfold rfind, p. destruct Hdir as [-> | [d ->]].
    - cbn [app length]. by rewrite rfind_from_notin.
    - rewrite <- app_assoc. cbn [app].
      rewrite rfind_from_last by (lia || done).
      rewrite length_app. cbn [length]. lia. }
  assert (Hsplit : splitext p = (dir ++ x :: name, dot :: ext)).
  { unfold splitext. rewrite Hdot, Hsep, length_app. cbn [length].
    destruct (Z.gtb_spec (Z.of_nat (length dir + S (length name)))
                         (Z.of_nat (length dir) - 1)) as [_|Hle]; [|lia].
    replace (Z.to_nat (Z.of_nat (length dir + S (length name))
                       - (Z.of_nat (length dir) - 1 + 1)))
      with (S (length name)) by lia.
    cbn [skip_leading_dots].
    assert (Hslice : slice p (Z.of_nat (length dir) - 1 + 1)
                           (Z.of_nat (length dir) - 1 + 1 + 1) = [x]).
    { unfold slice, p.
      replace (Z.to_nat (Z.of_nat (length dir) - 1 + 1)) with (length dir) by lia.
      replace (Z.to_nat (Z.of_nat (length dir) - 1 + 1 + 1
                         - (Z.of_nat (length dir) - 1 + 1))) with 1%nat by lia.
      by rewrite drop_app_length. }
    rewrite Hslice. rewrite bool_decide_eq_true_2 by congruence.
    unfold slice_to, slice_from, p.
    replace (Z.to_nat (Z.of_nat (length dir + S (length name))))
      with (length (dir ++ x :: name)) by (rewrite length_app; cbn [length]; lia).
    replace (dir ++ x :: name ++ dot :: ext)
      with ((dir ++ x :: name) ++ dot :: ext) by (by rewrite <- app_assoc).
    by rewrite take_app_length, drop_app_length. }
  assert (Hout : output_path (Args p None) = dir ++ x :: name ++ lit ".xml").
  { unfold output_path. cbn [output_xml input_csv]. rewrite Hsplit.
    cbn [fst]. by rewrite <- app_assoc. }
  split; [exact Hout|]. intros ->. rewrite Hout. reflexivity.
Qed.

Lemma default_output_path_witness :
  output_path (Args (lit "data/pets.xml") None) = lit "data/pets.xml".
Proof.
  apply (default_output_path (lit "data/") (lit "ets") (lit "xml") 112%N).
  - right. exists (lit "data"). reflexivity.
  - discriminate.
  - discriminate.
  - vm_compute. intuition discriminate.
  - vm_compute. intuition discriminate.
  - vm_compute. intuition discriminate.
  - reflexivity.
Defined.

(** ** Terms and alias names in the output *)

Section OutputExtras.

Variable csv_reader : list N -> reader.
Variable quot_in_text : bool.

Abbreviation writexml' := (writexml quot_in_text (lit "  ") [newline]).

(** The line of an element with a text and no children. *)
Lemma writexml_leaf indent tg tx :
  tx <> [] ->
  writexml' indent (dom_of (leaf tg tx))
  = indent ++ lit "<" ++ tg ++ lit ">"
    ++ write_data quot_in_text (normalize_eol tx)
    ++ lit "</" ++ tg ++ lit ">" ++ [newline].
Proof. by destruct tx. Qed.

Lemma occurs_in_document (rows : list row) x :
  occurs_in x (writexml' [] (dom_of (glossary_tree rows))) ->
  occurs_in x (toprettyxml quot_in_text (dom_of (glossary_tree rows))).
Proof.
  intros Hx. apply (occurs_in_trans _ _ _ Hx).
  exists (lit "<?xml version=" ++ [dquote] ++ lit "1.0" ++ [dquote]
          ++ lit " encoding=" ++ [dquote] ++ lit "UTF-8" ++ [dquote]
          ++ lit "?>" ++ [newline]), [].
  unfold toprettyxml. by rewrite app_nil_r, <- !app_assoc.
Qed.

(** Where the entry of a row is printed. *)
Lemma entry_occurs (rows : list row) (r : row) :
  In r rows ->
  occurs_in (writexml' (lit "      ") (dom_of (entry_tree r)))
            (toprettyxml quot_in_text (dom_of (glossary_tree rows))).
Proof.
  intros Hr. apply occurs_in_document. unfold glossary_tree.
  eapply occurs_in_trans; [|apply tree_child_occurs; left; reflexivity].
  eapply occurs_in_trans; [|apply tree_child_occurs; do 13 right; left; reflexivity].
  eapply occurs_in_trans; [|apply tree_child_occurs, in_map, Hr].
  exists [], []. by rewrite app_nil_r.
Qed.

Lemma concept_line_occurs (rows : list row) (r : row) :
  In r rows ->
  occurs_in (if truthy r.1.1
             then lit "        <CONCEPT>"
                  ++ write_data quot_in_text (normalize_eol r.1.1)
                  ++ lit "</CONCEPT>" ++ [newline]
             else lit "        <CONCEPT/>" ++ [newline])
            (toprettyxml quot_in_text (dom_of (glossary_tree rows))).
Proof.
  intros Hr. eapply occurs_in_trans; [|exact (entry_occurs rows r Hr)].
  destruct r as [[concept definition] tags]. unfold entry_tree.
  eapply occurs_in_trans; [|apply tree_child_occurs; left; reflexivity].
  cbn [fst]. destruct concept as [|c concept]; exists [], []; by rewrite app_nil_r.
Qed.

Lemma name_line_occurs (rows : list row) (r : row) token :
  In r rows -> In token (tag_list r.2) ->
  occurs_in (lit "            <NAME>"
             ++ write_data quot_in_text (normalize_eol token)
             ++ lit "</NAME>" ++ [newline])
            (toprettyxml quot_in_text (dom_of (glossary_tree rows))).
Proof.
  intros Hr Htoken.
  eapply occurs_in_trans; [|exact (entry_occurs rows r Hr)].
  destruct r as [[concept definition] tags]. unfold entry_tree. cbn [snd] in Htoken.
  eapply occurs_in_trans; [|apply tree_child_occurs; do 8 right; left; reflexivity].
  eapply occurs_in_trans;
    [|apply tree_child_occurs, (in_map alias_tree _ _ Htoken)].
  unfold alias_tree.
  eapply occurs_in_trans; [|apply tree_child_occurs; left; reflexivity].
  rewrite writexml_leaf by (by destruct (tag_list_tokens tags token Htoken)).
  exists [], []. by rewrite app_nil_r.
Qed.

(** X12. In the file a successful run writes, the term of every row and
    each of its alias names stand as escaped character data on lines of
    their own: between [<CONCEPT>] and [</CONCEPT>] (or as [<CONCEPT/>]
    for an empty term) and between [<NAME>] and [</NAME>], with [&amp;],
    [&lt;] and [&gt;] for the ampersand and the angle brackets. *)
Theorem terms_and_names_escaped (a : args) (w w1 : world) writable bytes
        header (rows : list row) :
  fs w !! input_csv a = Some (File writable bytes) ->
  csv_reader bytes = Row header :: map Row3 rows ->
  Forall (fun r => row_texts_ok r = true) rows ->
  open_w w (output_path a) = OK w1 ->
  exists pretty_xml content,
    utf8_encode pretty_xml = Some content
    /\ fs (main csv_reader quot_in_text a w).2 !! output_path a
       = Some (File true content)
    /\ forall r : row,
         In r rows ->
         occurs_in (if truthy r.1.1
                    then lit "        <CONCEPT>"
                         ++ write_data quot_in_text (normalize_eol r.1.1)
                         ++ lit "</CONCEPT>" ++ [newline]
                    else lit "        <CONCEPT/>" ++ [newline])
                   pretty_xml
         /\ ~ In lt (write_data quot_in_text (normalize_eol r.1.1))
         /\ ~ In gt (write_data quot_in_text (normalize_eol r.1.1))
         /\ forall token,
              In token (tag_list r.2) ->
              occurs_in (lit "            <NAME>"
                         ++ write_data quot_in_text (normalize_eol token)
                         ++ lit "</NAME>" ++ [newline])
                        pretty_xml
              /\ ~ In lt (write_data quot_in_text (normalize_eol token))
              /\ ~ In gt (write_data quot_in_text (normalize_eol token)).
Proof.
  intros Hfile Hrows Hok Hopen.
  assert (Hok' : forallb row_texts_ok rows = true)
    by (apply forallb_forall; intros r Hr; by apply (proj1 (List.Forall_forall _ _) Hok)).
  destruct (main_converts_texts csv_reader quot_in_text a w w1 writable bytes
              header rows Hfile Hrows Hok' Hopen) as (content & Hcontent & Hmain).
  exists (toprettyxml quot_in_text (dom_of (glossary_tree rows))), content.
  rewrite Hmain. split; [exact Hcontent|]. split; [apply lookup_insert_eq|].
  intros r Hr. split; [by apply concept_line_occurs|].
  split; [apply write_data_no_angle|]. split; [apply write_data_no_angle|].
  intros token Htoken. split; [by apply (name_line_occurs rows r)|].
  split; apply write_data_no_angle.
Qed.

End OutputExtras.

Lemma terms_and_names_escaped_witness :
  exists pretty_xml content,
    utf8_encode pretty_xml = Some content
    /\ fs (main plain_reader true pets_args pets_world).2 !! output_path pets_args
       = Some (File true content)
    /\ forall r : row,
         In r pets_rows ->
         occurs_in (if truthy r.1.1
                    then lit "        <CONCEPT>"
                         ++ write_data true (normalize_eol r.1.1)
                         ++ lit "</CONCEPT>" ++ [newline]
                    else lit "        <CONCEPT/>" ++ [newline])
                   pretty_xml
         /\ ~ In lt (write_data true (normalize_eol r.1.1))
         /\ ~ In gt (write_data true (normalize_eol r.1.1))
         /\ forall token,
              In token (tag_list r.2) ->
              occurs_in (lit "            <NAME>"
                         ++ write_data true (normalize_eol token)
                         ++ lit "</NAME>" ++ [newline])
                        pretty_xml
              /\ ~ In lt (write_data true (normalize_eol token))
              /\ ~ In gt (write_data true (normalize_eol token)).
Proof.
  apply (terms_and_names_escaped plain_reader true pets_args pets_world
           pets_world_open true pets_csv
           [lit "Term"; lit "Definition"; lit "Tags"] pets_rows).
  - reflexivity.
  - vm_compute. reflexivity.
  - repeat constructor.
  - vm_compute. reflexivity.
Defined.

(** ** The translation script *)

Section TranslateRuns.

Variable INSTRUCTIONS : str.
Variable respond : list N -> request -> t_result (option str).
Variable decode_text : list N -> option str.
Variable Path : str -> str.

Abbreviation translate_main' :=
  (translate_main INSTRUCTIONS respond decode_text Path).

(** X13. [main], called with anything but two arguments, or finding no
    [OPENAI_API_KEY] that is not empty in the environment ([environ] is
    [os.environ] as it is when [main] runs, after line 8), only prints one
    line on the standard error (the usage line in the first case, the error
    about the key otherwise) and returns 2: no file has changed and no
    request has been sent. *)
Theorem rejected_before_effects (argv : list str) environ (w : t_world) :
  length argv <> 3%nat
  \/ environ !! lit "OPENAI_API_KEY" = None
  \/ environ !! lit "OPENAI_API_KEY" = Some [] ->
  exists line,
    translate_main' argv environ w
    = (TOK 2%Z, TWorld (files w) (stderr w ++ [line]) (requests w))
    /\ t_exit_status (translate_main' argv environ w).1 = 2%Z
    /\ line = (if decide (length argv = 3%nat) then no_key_message
               else usage_message).
Proof.
  intros Hrejected.
  destruct argv as [|prog [|in_arg [|out_arg [|extra argv]]]];
    try (by exists usage_message).
  destruct Hrejected as [Hlen | [Hkey | Hkey]]; [done| |];
    exists no_key_message; unfold translate_main; by rewrite Hkey.
Qed.

(** X14. [main] with two arguments and a key that is not empty in the
    environment: when the input cannot be opened (a missing file or
    directory gives [FileNotFoundError], a path through a regular file
    [NotADirectoryError], a directory [IsADirectoryError]), or holds bytes
    that are not UTF-8, that exception leaves [main], the status is 1, and
    neither a request has been sent nor a file changed. *)
Theorem unreadable_input_sends_nothing (prog in_arg out_arg api_key : str)
        environ (w : t_world) :
  environ !! lit "OPENAI_API_KEY" = Some api_key ->
  api_key <> [] ->
  (forall e,
     open_r (files w) (Path in_arg) = Raised e ->
     translate_main' [prog; in_arg; out_arg] environ w = (TRaised (IOError e), w)
     /\ t_exit_status (translate_main' [prog; in_arg; out_arg] environ w).1 = 1%Z)
  /\ (forall writable bytes,
        fs (files w) !! Path in_arg = Some (File writable bytes) ->
        decode_text bytes = None ->
        translate_main' [prog; in_arg; out_arg] environ w
        = (TRaised (IOError UnicodeDecodeError), w)
        /\ t_exit_status (translate_main' [prog; in_arg; out_arg] environ w).1
           = 1%Z).
Proof.
  intros Hkey Hne. unfold translate_main. rewrite Hkey.
  destruct api_key as [|k api_key]; [done|]. cbn [truthy].
  unfold read_text. split.
  - intros e Hopen. by rewrite Hopen.
  - intros writable bytes Hfile Hdec. unfold open_r. by rewrite Hfile, Hdec.
Qed.

(** X15. A response without text, or with an empty text, makes
    [translate_html] raise [RuntimeError] after the request was sent: the
    script ends with status 1 and the output file is neither created nor
    changed. *)
Theorem empty_response_raises (prog in_arg out_arg api_key : str)
        environ (w : t_world) (html : str) :
  environ !! lit "OPENAI_API_KEY" = Some api_key ->
  api_key <> [] ->
  read_text decode_text w (Path in_arg) = TOK html ->
  (let sent := Request MODEL INSTRUCTIONS
                       (lit "<<<HTML" ++ [newline] ++ html ++ [newline]
                        ++ lit "HTML" ++ [newline]) TEMPERATURE in
   respond api_key sent = TOK None \/ respond api_key sent = TOK (Some [])) ->
  exists sent,
    translate_main' [prog; in_arg; out_arg] environ w
    = (TRaised RuntimeError,
       TWorld (files w) (stderr w) (requests w ++ [(api_key, sent)]))
    /\ input sent = lit "<<<HTML" ++ [newline] ++ html ++ [newline]
                    ++ lit "HTML" ++ [newline].
Proof.
  intros Hkey Hne Hread Hresp. unfold translate_main. rewrite Hkey.
  destruct api_key as [|k api_key]; [done|]. cbn [truthy].
  rewrite Hread. unfold translate_html. cbv zeta in Hresp.
  exists (Request MODEL INSTRUCTIONS
                  (lit "<<<HTML" ++ [newline] ++ html ++ [newline]
                   ++ lit "HTML" ++ [newline]) TEMPERATURE).
  split; [|reflexivity].
  by destruct Hresp as [-> | ->].
Qed.

(** X16. With a key, a readable input and a response with a text, the
    script sends one request, whose input is the file's text between the
    lines [<<<HTML] and [HTML]; it writes the response text, unchanged, to
    the output path, prints "Kész: <output path>" and returns 0. *)
Theorem translation_written (prog in_arg out_arg api_key : str)
        environ (w : t_world) (html text : str) (opened : world) bytes :
  environ !! lit "OPENAI_API_KEY" = Some api_key ->
  api_key <> [] ->
  read_text decode_text w (Path in_arg) = TOK html ->
  respond api_key
          (Request MODEL INSTRUCTIONS
                   (lit "<<<HTML" ++ [newline] ++ html ++ [newline]
                    ++ lit "HTML" ++ [newline]) TEMPERATURE)
  = TOK (Some text) ->
  text <> [] ->
  open_w (files w) (Path out_arg) = OK opened ->
  utf8_encode text = Some bytes ->
  translate_main' [prog; in_arg; out_arg] environ w
  = (TOK 0%Z,
     TWorld (World (<[Path out_arg := File true bytes]> (fs (files w)))
                   (stdout (files w) ++ [done_message (Path out_arg)]))
            (stderr w)
            (requests w
             ++ [(api_key,
                  Request MODEL INSTRUCTIONS
                          (lit "<<<HTML" ++ [newline] ++ html ++ [newline]
                           ++ lit "HTML" ++ [newline]) TEMPERATURE)])).
Proof.
  intros Hkey Hne Hread Hresp Htext Hopen Hbytes.
  unfold translate_main. rewrite Hkey.
  destruct api_key as [|k api_key]; [done|]. cbn [truthy].
  rewrite Hread. unfold translate_html. rewrite Hresp.
  destruct text as [|c text]; [done|]. cbn [truthy].
  unfold write_text. cbn [files stderr requests]. rewrite Hopen.
  apply open_w_OK in Hopen as ->.
  unfold write. rewrite Hbytes. unfold print. cbn [fs stdout files stderr requests].
  by rewrite insert_insert_eq.
Qed.

(** X17. Whatever the arguments, the environment and the service: the
    script sends at most one request, and a file changes only if it is the
    output path and the service answered that request with a text that is
    not empty. *)
Theorem one_request_one_file (argv : list str) environ (w : t_world) :
  let w' := (translate_main' argv environ w).2 in
  (requests w' = requests w \/ exists sent, requests w' = requests w ++ [sent])
  /\ forall p,
       fs (files w') !! p = fs (files w) !! p
       \/ (exists prog in_arg out_arg key sent text,
             argv = [prog; in_arg; out_arg]
             /\ p = Path out_arg
             /\ requests w' = requests w ++ [(key, sent)]
             /\ respond key sent = TOK (Some text)
             /\ text <> []).
Proof.
  cbv zeta.
  destruct argv as [|prog [|in_arg [|out_arg [|extra argv]]]];
    try (split; [by left | by left]).
  unfold translate_main.
  destruct (environ !! lit "OPENAI_API_KEY") as [[|k key]|];
    try (split; [by left | by left]).
  cbn [truthy].
  destruct (read_text decode_text w (Path in_arg)) as [html|e];
    [|split; [by left | by left]].
  unfold translate_html.
  set (sent := Request MODEL INSTRUCTIONS _ TEMPERATURE).
  destruct (respond (k :: key) sent) as [[[|c text]|]|e] eqn:Hresp;
    try (split; [right; by eexists | by left]).
  cbn [truthy]. unfold write_text. cbn [files stderr requests].
  destruct (open_w (files w) (Path out_arg)) as [opened|e] eqn:Hopen;
    [|split; [right; by eexists | by left]].
  apply open_w_OK in Hopen as ->.
  unfold write.
  destruct (utf8_encode (c :: text)) as [bytes|]; cbn [snd files requests fs print];
    (split; [right; by eexists|]); intros p;
    (destruct (decide (p = Path out_arg)) as [->|Hp];
     [right; exists prog, in_arg, out_arg, (k :: key), sent, (c :: text); by repeat split
     |left; by rewrite !lookup_insert_ne]).
Qed.

End TranslateRuns.

Lemma rejected_before_effects_witness :
  exists line,
    translate_main [] hello_service ascii_text id page_argv ∅ page_world
    = (TOK 2%Z, TWorld (files page_world) (stderr page_world ++ [line])
                       (requests page_world))
    /\ t_exit_status
         (translate_main [] hello_service ascii_text id page_argv ∅ page_world).1
       = 2%Z
    /\ line = (if decide (length page_argv = 3%nat) then no_key_message
               else usage_message).
Proof.
  apply (rejected_before_effects [] hello_service ascii_text id
           page_argv ∅ page_world).
  right. left. reflexivity.
Defined.

Lemma unreadable_input_sends_nothing_witness :
  open_r (files page_world) (id (lit "page.html/x")) = Raised NotADirectoryError
  /\ translate_main [] hello_service ascii_text id
       [lit "translate_html.py"; lit "page.html/x"; lit "out.html"]
       key_environ page_world
     = (TRaised (IOError NotADirectoryError), page_world)
  /\ translate_main [] hello_service ascii_text id
       [lit "translate_html.py"; lit "nopage.html"; lit "out.html"]
       key_environ page_world
     = (TRaised (IOError FileNotFoundError), page_world)
  /\ translate_main [] hello_service ascii_text id page_argv
       key_environ latin_page_world
     = (TRaised (IOError UnicodeDecodeError), latin_page_world).
Proof.
  split; [reflexivity|]. split; [|split].
  - apply (unreadable_input_sends_nothing [] hello_service ascii_text id
             (lit "translate_html.py") (lit "page.html/x") (lit "out.html")
             (lit "sk-test") key_environ page_world);
      [reflexivity | discriminate | reflexivity].
  - apply (unreadable_input_sends_nothing [] hello_service ascii_text id
             (lit "translate_html.py") (lit "nopage.html") (lit "out.html")
             (lit "sk-test") key_environ page_world);
      [reflexivity | discriminate | reflexivity].
  - apply (proj2 (unreadable_input_sends_nothing [] hello_service ascii_text id
                    (lit "translate_html.py") (lit "page.html")
                    (lit "page.en.html") (lit "sk-test") key_environ
                    latin_page_world eq_refl ltac:(discriminate))
             true [233%N]);
      reflexivity.
Defined.

Lemma empty_response_raises_witness :
  exists sent,
    translate_main [] silent_service ascii_text id page_argv key_environ page_world
    = (TRaised RuntimeError,
       TWorld (files page_world) [] [(lit "sk-test", sent)])
    /\ input sent = lit "<<<HTML" ++ [newline] ++ lit "<p>Szia</p>" ++ [newline]
                    ++ lit "HTML" ++ [newline].
Proof.
  apply (empty_response_raises [] silent_service ascii_text id
           (lit "translate_html.py") (lit "page.html") (lit "page.en.html")
           (lit "sk-test") key_environ page_world (lit "<p>Szia</p>")).
  - reflexivity.
  - discriminate.
  - reflexivity.
  - right. reflexivity.
Defined.

Lemma translation_written_witness :
  translate_main [] hello_service ascii_text id page_argv key_environ page_world
  = (TOK 0%Z,
     TWorld (World (<[lit "page.en.html" := File true (lit "<p>Hello</p>")]>
                      (fs (files page_world)))
                   [done_message (lit "page.en.html")])
            []
            [(lit "sk-test",
              Request MODEL []
                      (lit "<<<HTML" ++ [newline] ++ lit "<p>Szia</p>" ++ [newline]
                       ++ lit "HTML" ++ [newline]) TEMPERATURE)]).
Proof.
  apply (translation_written [] hello_service ascii_text id
           (lit "translate_html.py") (lit "page.html") (lit "page.en.html")
           (lit "sk-test") key_environ page_world (lit "<p>Szia</p>")
           (lit "<p>Hello</p>")
           (World (<[lit "page.en.html" := File true []]> (fs (files page_world))) [])
           (lit "<p>Hello</p>")).
  - reflexivity.
  - discriminate.
  - reflexivity.
  - reflexivity.
  - discriminate.
  - vm_compute. reflexivity.
  - reflexivity.
Defined.
